(** * Segment: a draggable, resizable time interval drawn over a waveform

    Shallow embedding of [src/lib/AudioUltra/Regions/Segment.ts].

    JavaScript numbers are modelled as exact rationals ([Q]): comparisons,
    additions and clamping are exact, and the special values of IEEE
    arithmetic (NaN, the infinities, rounding) are outside the model.  Where
    that matters, the module [Double] repeats the arithmetic of a drag step
    in IEEE doubles.
    Objects the segment only holds references to (waveform, visualizer,
    controller) live next to it in a [World]; every method is a function
    from [World] to [World], and the notifications it fires are appended to
    the world's [trace].  [render] returns the rectangles it fills as well.
    [hovered] and [scrollToRegion], which only forward to a collaborator,
    are left out. *)

From Stdlib Require Import QArith Lqa Lia List String Bool.
Import ListNotations.
Local Open Scope Q_scope.

Set Implicit Arguments.

(** ** JavaScript idioms *)

(** [o ?? d]: the nullish coalescing operator on an optional value. *)
Definition nullish {A : Type} (o : option A) (d : A) : A :=
  match o with
  | Some v => v
  | None => d
  end.

Notation "o ?? d" := (nullish o d) (at level 45, left associativity).

(** [!!o] on an optional boolean: [undefined] is falsy. *)
Definition truthy (o : option bool) : bool :=
  match o with
  | Some v => v
  | None => false
  end.

(** A constructor either returns the object or throws. *)
Inductive Result (A : Type) : Type :=
| Ok (value : A)
| Throw (message : string).

Arguments Ok {A} value.
Arguments Throw {A} message.

(** ** Helpers of [Common/Utils] *)

(** Modelled from the spec: [clamp] of [Common/Utils] is not part of the
    sources at hand.  The spec only says that clamping absorbs out-of-range
    inputs; it is modelled as [Math.max(min, Math.min(max, value))].  The
    theorems below use it only through [clamp_cases], that is only where the
    lower bound does not exceed the upper one, where every usual
    implementation of clamping agrees. *)
Definition clamp (value min max : Q) : Q :=
  let m := if Qlt_le_dec value max then value else max in
  if Qlt_le_dec min m then m else min.

(** Modelled from the spec: [pixelsToTime] of [Common/Utils] is not part of
    the sources at hand; the spec gives
    [pixelToTime(px, effectiveWidth, duration) = px/effectiveWidth * duration].
    In [Q] a division by 0 gives 0, where the code gets NaN or an infinity:
    the model follows the code only where [effectiveWidth] is not 0. *)
Definition pixelsToTime (px effectiveWidth duration : Q) : Q :=
  px / effectiveWidth * duration.

(** ** Colors ([Common/Color]) *)

(** The four channels of a color, as [rgba(...)] parses them. *)
Record Channels : Type := {
  red : Q;
  green : Q;
  blue : Q;
  alpha : Q
}.

Definition Channels_eqb (x y : Channels) : bool :=
  Qeq_bool (red x) (red y) && Qeq_bool (green x) (green y)
  && Qeq_bool (blue x) (blue y) && Qeq_bool (alpha x) (alpha y).

(** Modelled from the spec: the class [RgbaColorArray] of [Common/Color] is
    not part of the sources at hand.  The spec describes a mutable color
    value with an internal "base" and a derived "current" (darkened) state:
    [darken] scales the current channels, [reset] restores the base,
    [update] replaces the base. *)
Module RgbaColorArray.

Record t : Type := {
  base : Channels;
  rgba : Channels
}.

Definition clone (c : t) : t := c.

Definition darken (amount : Q) (c : t) : t :=
  {| base := base c;
     rgba := {| red := red (rgba c) * (1 - amount);
                green := green (rgba c) * (1 - amount);
                blue := blue (rgba c) * (1 - amount);
                alpha := alpha (rgba c) |} |}.

Definition reset (c : t) : t :=
  {| base := base c; rgba := base c |}.

Definition update (color : Channels) (c : t) : t :=
  {| base := color; rgba := color |}.

End RgbaColorArray.

(** Modelled from the spec: [rgba(color)] of [Common/Color] builds a color
    whose current value is its base. *)
Definition rgba (color : Channels) : RgbaColorArray.t :=
  {| RgbaColorArray.base := color; RgbaColorArray.rgba := color |}.

(** ['#ccc'] *)
Definition ccc : Channels :=
  {| red := 204; green := 204; blue := 204; alpha := 1 |}.

(** ** Events *)

(** The names of the segment's own events, [keyof SegmentEvents]. *)
Module SegmentEvents.

Inductive t : Type :=
| update | updateEnd | mouseEnter | mouseOver | mouseLeave | mouseDown
| mouseUp | click.

End SegmentEvents.

Inductive SegmentGlobalEvent : Type :=
| regionCreated | regionUpdated | regionSelected | regionUpdatedEnd
| regionRemoved.

(** What a method makes happen outside the segment's own fields. *)
Inductive Effect : Type :=
| Local (e : SegmentEvents.t)          (* this.invoke(e, [this]) *)
| Global (e : SegmentGlobalEvent)   (* this.waveform.invoke(e, [this]) *)
| PlayerPause                       (* this.waveform.player.pause() *)
| PreventDefault                    (* e.preventDefault() *)
| StopPropagation                   (* e.stopPropagation() *)
| DocumentAdd (type : string)       (* document.addEventListener *)
| DocumentRemove (type : string).   (* document.removeEventListener *)

Definition Effect_eq_dec (x y : Effect) : {x = y} + {x <> y}.
Proof.
  repeat decide equality.
Defined.

(** Modelled from the spec: the base class [Events] of [Common/Events] is not
    part of the sources at hand.  The spec says that teardown releases all
    local listeners and marks the object destroyed. *)
Record Events : Type := {
  isDestroyed : bool;
  handlers : list SegmentEvents.t
}.

Definition Events_new : Events :=
  {| isDestroyed := false; handlers := [] |}.

Definition Events_on (e : SegmentEvents.t) (ev : Events) : Events :=
  {| isDestroyed := isDestroyed ev; handlers := handlers ev ++ [e] |}.

Definition Events_destroy (ev : Events) : Events :=
  {| isDestroyed := true; handlers := [] |}.

(** ** The collaborators *)

Inductive CursorSymbol : Type :=
| crosshair | colResize | grab | grabbing.

Record Waveform : Type := {
  duration : Q;
  zoom : Q;
  playing : bool;
  cursor : CursorSymbol * string
}.

Record Visualizer : Type := {
  vis_width : Q;
  zoomedWidth : Q;
  getScrollLeft : Q;
  layers : list (string * string)
}.

Record Regions : Type := {
  layerGroup_isVisible : bool;
  isLocked : bool
}.

(** The part of a [MouseEvent] the segment looks at, through helpers that are
    not part of the sources at hand: the value of
    [getCursorPositionX(e, container)], the value of
    [getCursorTime(e, visualizer, duration)] and the controller's verdict
    [isOverrideKeyPressed(e)]. *)
Record MouseEvent : Type := {
  cursorPositionX : Q;
  cursorTime : Q;
  overrideKeyPressed : bool
}.

(** ** The segment *)

Record SegmentOptions : Type := {
  opt_id : option string;
  opt_start : Q;
  opt_end : Q;
  opt_color : option Channels;
  opt_selected : option bool;
  opt_updateable : option bool;
  opt_deleteable : option bool;
  opt_visible : option bool
}.

(** [Partial<SegmentOptions>] *)
Record PartialSegmentOptions : Type := {
  p_id : option string;
  p_start : option Q;
  p_end : option Q;
  p_color : option Channels;
  p_selected : option bool;
  p_updateable : option bool;
  p_deleteable : option bool;
  p_visible : option bool
}.

Record GrabState : Type := {
  grabPosition : Q;
  grab_start : Q;
  grab_end : Q
}.

Record EdgeGrab : Type := {
  isRightEdge : bool;
  isLeftEdge : bool
}.

Record Segment : Type := {
  id : string;
  start : Q;
  end_ : Q;
  color : RgbaColorArray.t;
  handleColor : RgbaColorArray.t;
  selected : bool;
  highlighted : bool;
  updateable : bool;
  deleteable : bool;
  visible : bool;
  handleWidth : Q;
  isDragging : bool;
  draggingStartPosition : option GrabState;
  isGrabbingEdge : EdgeGrab;
  super : Events
}.

Record World : Type := {
  seg : Segment;
  waveform : Waveform;
  visualizer : Visualizer;
  controller : Regions;
  trace : list Effect
}.

(** ** Field assignments

    [set_f v s] is the segment after [this.f = v]. *)

Definition set_start (v : Q) (s : Segment) : Segment :=
  {| id := id s; start := v; end_ := end_ s; color := color s;
     handleColor := handleColor s; selected := selected s;
     highlighted := highlighted s; updateable := updateable s;
     deleteable := deleteable s; visible := visible s;
     handleWidth := handleWidth s; isDragging := isDragging s;
     draggingStartPosition := draggingStartPosition s;
     isGrabbingEdge := isGrabbingEdge s; super := super s |}.

Definition set_end_ (v : Q) (s : Segment) : Segment :=
  {| id := id s; start := start s; end_ := v; color := color s;
     handleColor := handleColor s; selected := selected s;
     highlighted := highlighted s; updateable := updateable s;
     deleteable := deleteable s; visible := visible s;
     handleWidth := handleWidth s; isDragging := isDragging s;
     draggingStartPosition := draggingStartPosition s;
     isGrabbingEdge := isGrabbingEdge s; super := super s |}.

Definition set_color (v : RgbaColorArray.t) (s : Segment) : Segment :=
  {| id := id s; start := start s; end_ := end_ s; color := v;
     handleColor := handleColor s; selected := selected s;
     highlighted := highlighted s; updateable := updateable s;
     deleteable := deleteable s; visible := visible s;
     handleWidth := handleWidth s; isDragging := isDragging s;
     draggingStartPosition := draggingStartPosition s;
     isGrabbingEdge := isGrabbingEdge s; super := super s |}.

Definition set_handleColor (v : RgbaColorArray.t) (s : Segment) : Segment :=
  {| id := id s; start := start s; end_ := end_ s; color := color s;
     handleColor := v; selected := selected s; highlighted := highlighted s;
     updateable := updateable s; deleteable := deleteable s;
     visible := visible s; handleWidth := handleWidth s;
     isDragging := isDragging s;
     draggingStartPosition := draggingStartPosition s;
     isGrabbingEdge := isGrabbingEdge s; super := super s |}.

Definition set_selected (v : bool) (s : Segment) : Segment :=
  {| id := id s; start := start s; end_ := end_ s; color := color s;
     handleColor := handleColor s; selected := v;
     highlighted := highlighted s; updateable := updateable s;
     deleteable := deleteable s; visible := visible s;
     handleWidth := handleWidth s; isDragging := isDragging s;
     draggingStartPosition := draggingStartPosition s;
     isGrabbingEdge := isGrabbingEdge s; super := super s |}.

Definition set_highlighted (v : bool) (s : Segment) : Segment :=
  {| id := id s; start := start s; end_ := end_ s; color := color s;
     handleColor := handleColor s; selected := selected s; highlighted := v;
     updateable := updateable s; deleteable := deleteable s;
     visible := visible s; handleWidth := handleWidth s;
     isDragging := isDragging s;
     draggingStartPosition := draggingStartPosition s;
     isGrabbingEdge := isGrabbingEdge s; super := super s |}.

Definition set_updateable (v : bool) (s : Segment) : Segment :=
  {| id := id s; start := start s; end_ := end_ s; color := color s;
     handleColor := handleColor s; selected := selected s;
     highlighted := highlighted s; updateable := v;
     deleteable := deleteable s; visible := visible s;
     handleWidth := handleWidth s; isDragging := isDragging s;
     draggingStartPosition := draggingStartPosition s;
     isGrabbingEdge := isGrabbingEdge s; super := super s |}.

Definition set_deleteable (v : bool) (s : Segment) : Segment :=
  {| id := id s; start := start s; end_ := end_ s; color := color s;
     handleColor := handleColor s; selected := selected s;
     highlighted := highlighted s; updateable := updateable s;
     deleteable := v; visible := visible s; handleWidth := handleWidth s;
     isDragging := isDragging s;
     draggingStartPosition := draggingStartPosition s;
     isGrabbingEdge := isGrabbingEdge s; super := super s |}.

Definition set_visible (v : bool) (s : Segment) : Segment :=
  {| id := id s; start := start s; end_ := end_ s; color := color s;
     handleColor := handleColor s; selected := selected s;
     highlighted := highlighted s; updateable := updateable s;
     deleteable := deleteable s; visible := v; handleWidth := handleWidth s;
     isDragging := isDragging s;
     draggingStartPosition := draggingStartPosition s;
     isGrabbingEdge := isGrabbingEdge s; super := super s |}.

Definition set_isDragging (v : bool) (s : Segment) : Segment :=
  {| id := id s; start := start s; end_ := end_ s; color := color s;
     handleColor := handleColor s; selected := selected s;
     highlighted := highlighted s; updateable := updateable s;
     deleteable := deleteable s; visible := visible s;
     handleWidth := handleWidth s; isDragging := v;
     draggingStartPosition := draggingStartPosition s;
     isGrabbingEdge := isGrabbingEdge s; super := super s |}.

Definition set_draggingStartPosition (v : option GrabState) (s : Segment)
    : Segment :=
  {| id := id s; start := start s; end_ := end_ s; color := color s;
     handleColor := handleColor s; selected := selected s;
     highlighted := highlighted s; updateable := updateable s;
     deleteable := deleteable s; visible := visible s;
     handleWidth := handleWidth s; isDragging := isDragging s;
     draggingStartPosition := v; isGrabbingEdge := isGrabbingEdge s;
     super := super s |}.

Definition set_isGrabbingEdge (v : EdgeGrab) (s : Segment) : Segment :=
  {| id := id s; start := start s; end_ := end_ s; color := color s;
     handleColor := handleColor s; selected := selected s;
     highlighted := highlighted s; updateable := updateable s;
     deleteable := deleteable s; visible := visible s;
     handleWidth := handleWidth s; isDragging := isDragging s;
     draggingStartPosition := draggingStartPosition s; isGrabbingEdge := v;
     super := super s |}.

Definition set_super (v : Events) (s : Segment) : Segment :=
  {| id := id s; start := start s; end_ := end_ s; color := color s;
     handleColor := handleColor s; selected := selected s;
     highlighted := highlighted s; updateable := updateable s;
     deleteable := deleteable s; visible := visible s;
     handleWidth := handleWidth s; isDragging := isDragging s;
     draggingStartPosition := draggingStartPosition s;
     isGrabbingEdge := isGrabbingEdge s; super := v |}.

(** The same for the world around the segment. *)

Definition with_seg (v : Segment) (w : World) : World :=
  {| seg := v; waveform := waveform w; visualizer := visualizer w;
     controller := controller w; trace := trace w |}.

Definition with_waveform (v : Waveform) (w : World) : World :=
  {| seg := seg w; waveform := v; visualizer := visualizer w;
     controller := controller w; trace := trace w |}.

Definition with_visualizer (v : Visualizer) (w : World) : World :=
  {| seg := seg w; waveform := waveform w; visualizer := v;
     controller := controller w; trace := trace w |}.

Definition with_trace (v : list Effect) (w : World) : World :=
  {| seg := seg w; waveform := waveform w; visualizer := visualizer w;
     controller := controller w; trace := v |}.

(** ** Notifications *)

Definition emit (e : Effect) (w : World) : World :=
  with_trace (trace w ++ [e]) w.

(** [this.invoke(name, [this])] *)
Definition invoke (e : SegmentEvents.t) (w : World) : World :=
  emit (Local e) w.

(** [this.waveform.invoke(name, [this])] *)
Definition waveform_invoke (e : SegmentGlobalEvent) (w : World) : World :=
  emit (Global e) w.

(** A change of the segment's own fields. *)
Definition modify (f : Segment -> Segment) (w : World) : World :=
  with_seg (f (seg w)) w.

(** [if (options.f !== undefined) this.f = options.f] *)
Definition assign {A : Type} (o : option A) (set : A -> Segment -> Segment)
    (s : Segment) : Segment :=
  match o with
  | Some v => set v s
  | None => s
  end.

(** ** Construction *)

Definition layerName (s : Segment) : string :=
  ("region-" ++ id s)%string.

Definition createLayer (groupName name : string) (v : Visualizer)
    : Visualizer :=
  {| vis_width := vis_width v; zoomedWidth := zoomedWidth v;
     getScrollLeft := getScrollLeft v;
     layers := layers v ++ [(groupName, name)] |}.

Definition on (e : SegmentEvents.t) (w : World) : World :=
  modify (fun s => set_super (Events_on e (super s)) s) w.

Definition initialize (w : World) : World :=
  let w := with_visualizer
             (createLayer "regions" (layerName (seg w)) (visualizer w)) w in
  let w := on SegmentEvents.mouseOver w in
  on SegmentEvents.mouseDown w.

(** [new Segment(options, waveform, visualizer, controller)]; [nanoid] is the
    identifier [nanoid(5)] would draw. *)
Definition constructor (options : SegmentOptions) (nanoid : string)
    (wf : Waveform) (vis : Visualizer) (ctl : Regions) : Result World :=
  if Qlt_le_dec (opt_start options) 0
  then Throw "Segment start must be greater than 0"
  else if Qlt_le_dec (opt_end options) 0
  then Throw "Segment end must be greater than 0"
  else
    (* the class's field initialisers *)
    let color0 := rgba ccc in
    let updateable0 := true in
    let deleteable0 := true in
    let visible0 := true in
    Ok (initialize
          {| seg :=
               {| id := opt_id options ?? nanoid;
                  start := opt_start options;
                  end_ := opt_end options;
                  color := color0;
                  handleColor :=
                    RgbaColorArray.darken (6 # 10)
                      (RgbaColorArray.clone color0);
                  selected := truthy (opt_selected options);
                  highlighted := false;
                  updateable := opt_updateable options ?? updateable0;
                  deleteable := deleteable0;
                  visible := opt_visible options ?? visible0;
                  handleWidth := 2;
                  isDragging := false;
                  draggingStartPosition := None;
                  isGrabbingEdge :=
                    {| isRightEdge := false; isLeftEdge := false |};
                  super := Events_new |};
             waveform := wf;
             visualizer := vis;
             controller := ctl;
             trace := [] |}).

(** ** Programmatic updates *)

Definition update (options : PartialSegmentOptions) (w : World) : World :=
  if negb (updateable (seg w))
     && match p_updateable options with
        | Some u => negb u
        | None => false
        end
  then w
  else
    modify (fun s =>
      let s := assign (p_updateable options) set_updateable s in
      let s := assign (p_deleteable options) set_deleteable s in
      let s := assign (p_start options) set_start s in
      let s := assign (p_end options) set_end_ s in
      let s := assign (p_selected options) set_selected s in
      let s := assign (p_visible options) set_visible s in
      assign (p_color options) (fun c => set_color (rgba c)) s) w.

Definition setVisibility (v : bool) (w : World) : World :=
  if Bool.eqb v (visible (seg w)) then w
  else
    let w := modify (set_visible v) w in
    let w := invoke SegmentEvents.update w in
    waveform_invoke regionUpdated w.

(** ** Derived geometry *)

Definition xStart (w : World) : Q :=
  let width := vis_width (visualizer w) in
  let position := getScrollLeft (visualizer w) in
  let offsetX :=
    (start (seg w) / duration (waveform w) * width) - (width * position) in
  offsetX * zoom (waveform w).

Definition width (w : World) : Q :=
  let regionWidth :=
    (end_ (seg w) - start (seg w)) / duration (waveform w)
    * vis_width (visualizer w) in
  regionWidth * zoom (waveform w).

Definition xEnd (w : World) : Q :=
  xStart w + width w.

Definition inViewport (w : World) : bool :=
  let startX := xStart w in
  let endX := xEnd w in
  let width := vis_width (visualizer w) * zoom (waveform w) in
  if Qle_bool startX 0 && Qle_bool endX 0 then false
  else if Qle_bool width startX && Qle_bool width endX then false
  else true.

Definition toJSON (w : World) : Q * Q :=
  (start (seg w), end_ (seg w)).

(** ** Cursor *)

Definition requiresCursorFocus (symbol : CursorSymbol) : bool :=
  negb (match symbol with
        | crosshair => true
        | _ => false
        end).

Definition cursor_set (symbol : CursorSymbol) (focusId : string)
    (wf : Waveform) : Waveform :=
  {| duration := duration wf; zoom := zoom wf; playing := playing wf;
     cursor := (symbol, focusId) |}.

Definition switchCursor (symbol : CursorSymbol) (shouldGrabFocus : bool)
    (w : World) : World :=
  with_waveform
    (cursor_set symbol
       (if shouldGrabFocus && requiresCursorFocus symbol
        then layerName (seg w) else ""%string)
       (waveform w)) w.

(** ** Color and display state *)

Definition setColor (c : Channels) (w : World) : World :=
  let w :=
    modify (fun s => set_color (RgbaColorArray.update c (color s)) s) w in
  modify (fun s =>
    set_handleColor
      (RgbaColorArray.darken (6 # 10)
         (RgbaColorArray.update c (handleColor s))) s) w.

Definition setColorDarken (value : Q) (w : World) : World :=
  if Channels_eqb (RgbaColorArray.rgba (color (seg w)))
                  (RgbaColorArray.base (color (seg w)))
  then modify (fun s => set_color (RgbaColorArray.darken value (color s)) s) w
  else w.

Definition color_reset (w : World) : World :=
  modify (fun s => set_color (RgbaColorArray.reset (color s)) s) w.

Definition updateColor (c : Channels) (w : World) : World :=
  if negb (updateable (seg w)) then w
  else
    let w := setColor c w in
    let w := invoke SegmentEvents.update w in
    waveform_invoke regionUpdated w.

(** Modelled from the spec: [player.pause()] of the waveform is not part of
    the sources at hand; it stops the active playback. *)
Definition player_pause (w : World) : World :=
  emit PlayerPause
    (with_waveform
       {| duration := duration (waveform w); zoom := zoom (waveform w);
          playing := false; cursor := cursor (waveform w) |} w).

Definition handleSelected (sel : option bool) (w : World) : World :=
  if negb (updateable (seg w)) then w
  else
    let w := if playing (waveform w) then player_pause w else w in
    let w := modify (fun s => set_selected (sel ?? negb (selected s)) s) w in
    let w := if truthy sel then setColorDarken (1 # 2) w else color_reset w in
    let w := invoke SegmentEvents.update w in
    waveform_invoke regionUpdated w.

Definition handleHighlighted (hl : option bool) (w : World) : World :=
  if negb (updateable (seg w)) || selected (seg w) then w
  else
    let w :=
      modify (fun s => set_highlighted (hl ?? negb (highlighted s)) s) w in
    let w := if highlighted (seg w) then setColorDarken (1 # 2) w
             else color_reset w in
    let w := invoke SegmentEvents.update w in
    waveform_invoke regionUpdated w.

(** ** Position *)

Definition updatePosition (start' end' : option Q) (w : World) : World :=
  if negb (updateable (seg w)) then w
  else
    let newStart := start' ?? start (seg w) in
    let newEnd := end' ?? end_ (seg w) in
    let '(newStart, newEnd) :=
      if Qlt_le_dec newEnd newStart then (newEnd, newStart)
      else (newStart, newEnd) in
    let w := modify (set_start newStart) w in
    let w := modify (set_end_ newEnd) w in
    let w := invoke SegmentEvents.update w in
    waveform_invoke regionUpdated w.

(** ** Removal *)

Definition remove (w : World) : World :=
  if negb (deleteable (seg w)) then w
  else waveform_invoke regionRemoved w.

Definition destroy (notify : bool) (w : World) : World :=
  if negb (deleteable (seg w)) || isDestroyed (super (seg w)) then w
  else
    let w := if notify then remove w else w in
    modify (fun s => set_super (Events_destroy (super s)) s) w.

(** ** Pointer interaction *)

Definition edgeGrabCheck (e : MouseEvent) (w : World) : EdgeGrab :=
  let handleTime :=
    pixelsToTime (handleWidth (seg w)) (zoomedWidth (visualizer w))
      (duration (waveform w)) in
  {| isRightEdge :=
       if Qlt_le_dec (end_ (seg w) - handleTime) (cursorTime e)
       then true else false;
     isLeftEdge :=
       if Qlt_le_dec (cursorTime e) (start (seg w) + handleTime)
       then true else false |}.

Definition mouseOver (e : MouseEvent) (w : World) : World :=
  if negb (updateable (seg w)) || negb (layerGroup_isVisible (controller w))
  then w
  else
    let isEdgeGrab := edgeGrabCheck e w in
    if isDragging (seg w) then w
    else if isRightEdge isEdgeGrab || isLeftEdge isEdgeGrab
    then switchCursor colResize true w
    else switchCursor grab true w.

Definition handleUpdateEnd (w : World) : World :=
  let w := invoke SegmentEvents.updateEnd w in
  waveform_invoke regionUpdatedEnd w.

Definition handleMouseUp (e : MouseEvent) (w : World) : World :=
  if negb (updateable (seg w)) then w
  else
    let w :=
      if isDragging (seg w)
      then handleUpdateEnd (switchCursor grab true w)
      else waveform_invoke regionSelected (handleSelected None w) in
    let w := modify (set_isDragging false) w in
    let w := modify (set_draggingStartPosition None) w in
    let w := modify (set_isGrabbingEdge
                       {| isRightEdge := false; isLeftEdge := false |}) w in
    let w := emit (DocumentRemove "mousemove") w in
    emit (DocumentRemove "mouseup") w.

(** The time the pointer has travelled since it grabbed the segment. *)
Definition dragSeconds (e : MouseEvent) (g : GrabState) (w : World) : Q :=
  let scrollLeft := getScrollLeft (visualizer w) in
  let currentPosition := cursorPositionX e + scrollLeft in
  let currentPosition :=
    if Qlt_le_dec currentPosition 0 then 0 else currentPosition in
  let newPosition := currentPosition - grabPosition g in
  pixelsToTime newPosition (zoomedWidth (visualizer w))
    (duration (waveform w)).

Definition handleDrag (e : MouseEvent) (w : World) : World :=
  if negb (updateable (seg w)) then w
  else
    match draggingStartPosition (seg w) with
    | None => w
    | Some g =>
      let w := emit PreventDefault w in
      let w := emit StopPropagation w in
      let w := modify (set_isDragging true) w in
      let freezeStart := isRightEdge (isGrabbingEdge (seg w)) in
      let freezeEnd := isLeftEdge (isGrabbingEdge (seg w)) in
      let start := grab_start g in
      let end' := grab_end g in
      let isResizing := freezeStart || freezeEnd in
      let duration := duration (waveform w) in
      let seconds := dragSeconds e g w in
      let timeDiff := end' - start in
      let newStart :=
        if freezeEnd then start + seconds
        else clamp (start + seconds) 0 (duration - timeDiff) in
      let startTime := if freezeStart then start else newStart in
      let endTime :=
        if freezeEnd then end'
        else clamp (end' + seconds)
               (newStart + (if isResizing then 0 else timeDiff)) duration in
      let w := if freezeStart || freezeEnd
               then switchCursor colResize true w
               else switchCursor grabbing true w in
      updatePosition (Some (clamp startTime 0 duration))
        (Some (clamp endTime 0 duration)) w
    end.

Definition mouseDown (e : MouseEvent) (w : World) : World :=
  if negb (updateable (seg w)) || negb (layerGroup_isVisible (controller w))
  then w
  else if overrideKeyPressed e || isLocked (controller w) then w
  else
    let x := cursorPositionX e + getScrollLeft (visualizer w) in
    let w :=
      modify (set_draggingStartPosition
                (Some {| grabPosition := x; grab_start := start (seg w);
                         grab_end := end_ (seg w) |})) w in
    let w := modify (set_isGrabbingEdge (edgeGrabCheck e w)) w in
    let w := emit (DocumentAdd "mouseup") w in
    emit (DocumentAdd "mousemove") w.

(** * A running example

    A ten-second segment in a hundred-second waveform shown at ten pixels per
    second; its options ask for [deleteable: false]. *)

Definition demo_waveform : Waveform :=
  {| duration := 100; zoom := 1; playing := false;
     cursor := (crosshair, ""%string) |}.

Definition demo_visualizer : Visualizer :=
  {| vis_width := 1000; zoomedWidth := 1000; getScrollLeft := 0;
     layers := [] |}.

Definition demo_controller : Regions :=
  {| layerGroup_isVisible := true; isLocked := false |}.

Definition demo_options : SegmentOptions :=
  {| opt_id := Some "a"%string; opt_start := 10; opt_end := 20;
     opt_color := None; opt_selected := None; opt_updateable := None;
     opt_deleteable := Some false; opt_visible := None |}.

Definition demo_segment : Segment :=
  {| id := "a"; start := 10; end_ := 20;
     color := rgba ccc;
     handleColor := RgbaColorArray.darken (6 # 10) (rgba ccc);
     selected := false; highlighted := false; updateable := true;
     deleteable := true; visible := true; handleWidth := 2;
     isDragging := false; draggingStartPosition := None;
     isGrabbingEdge := {| isRightEdge := false; isLeftEdge := false |};
     super :=
       {| isDestroyed := false;
          handlers := [SegmentEvents.mouseOver; SegmentEvents.mouseDown] |} |}.

Definition demo_world : World :=
  {| seg := demo_segment; waveform := demo_waveform;
     visualizer := createLayer "regions" "region-a" demo_visualizer;
     controller := demo_controller; trace := [] |}.

(** The pointer over pixel [x] of the container, that is over time [t]. *)
Definition pointer (x t : Q) : MouseEvent :=
  {| cursorPositionX := x; cursorTime := t; overrideKeyPressed := false |}.

(** The demo segment grabbed by its body, by its left edge and by its right
    edge. *)
Definition body_grabbed : World := mouseDown (pointer 150 15) demo_world.
Definition left_grabbed : World := mouseDown (pointer 100 10) demo_world.
Definition right_grabbed : World := mouseDown (pointer 200 20) demo_world.

(** A segment that outlasts the waveform, [{ start: 10, end: 200 }], grabbed
    by its left edge. *)
Definition long_options : SegmentOptions :=
  {| opt_id := Some "a"%string; opt_start := 10; opt_end := 200;
     opt_color := None; opt_selected := None; opt_updateable := None;
     opt_deleteable := None; opt_visible := None |}.

Definition long_world : World := modify (set_end_ 200) demo_world.

Definition long_left_grabbed : World := mouseDown (pointer 100 10) long_world.

(** The demo segment with its [updateable] flag cleared. *)
Definition locked_world : World :=
  modify (set_updateable false) demo_world.

(** [{ start: 20, end: 10 }], as constructor options and as an update. *)
Definition reversed_options : SegmentOptions :=
  {| opt_id := Some "a"%string; opt_start := 20; opt_end := 10;
     opt_color := None; opt_selected := None; opt_updateable := None;
     opt_deleteable := None; opt_visible := None |}.

Definition no_options : PartialSegmentOptions :=
  {| p_id := None; p_start := None; p_end := None; p_color := None;
     p_selected := None; p_updateable := None; p_deleteable := None;
     p_visible := None |}.

Definition reversed_update : PartialSegmentOptions :=
  {| p_id := None; p_start := Some 20; p_end := Some 10; p_color := None;
     p_selected := None; p_updateable := None; p_deleteable := None;
     p_visible := None |}.

(** [{ start: x }] and [{ deleteable: false }] *)
Definition start_only (x : Q) : PartialSegmentOptions :=
  {| p_id := None; p_start := Some x; p_end := None; p_color := None;
     p_selected := None; p_updateable := None; p_deleteable := None;
     p_visible := None |}.

(** [{ start: 5, updateable: false }] *)
Definition keep_locked : PartialSegmentOptions :=
  {| p_id := None; p_start := Some 5; p_end := None; p_color := None;
     p_selected := None; p_updateable := Some false; p_deleteable := None;
     p_visible := None |}.

Definition clear_deleteable : PartialSegmentOptions :=
  {| p_id := None; p_start := None; p_end := None; p_color := None;
     p_selected := None; p_updateable := None; p_deleteable := Some false;
     p_visible := None |}.

(** [options] with its [deleteable] member replaced. *)
Definition with_opt_deleteable (d : option bool) (o : SegmentOptions)
    : SegmentOptions :=
  {| opt_id := opt_id o; opt_start := opt_start o; opt_end := opt_end o;
     opt_color := opt_color o; opt_selected := opt_selected o;
     opt_updateable := opt_updateable o; opt_deleteable := d;
     opt_visible := opt_visible o |}.

(** A gesture in progress: the pointer moves through [es] while the button
    is held. *)
Definition drag_steps (es : list MouseEvent) (w : World) : World :=
  fold_left (fun w e => handleDrag e w) es w.

(** ** Drawing *)

(** What [render] reads besides the [World]: the visualizer's height and
    timeline settings, the visibility of its timeline layer (absent when
    [getLayer('timeline')] finds none) and the two [defaults] of
    [Common/Utils], which are not part of the sources at hand. *)
Record Canvas : Type := {
  height : Q;
  vis_timelineHeight : option Q;
  vis_timelinePlacement : option string;
  timelineLayer_isVisible : option bool;
  defaults_timelineHeight : Q;
  defaults_timelinePlacement : string
}.

(** [layer.fillStyle = style.toString(); layer.fillRect(x, y, w, h)] *)
Record FillRect : Type := {
  fillStyle : RgbaColorArray.t;
  rect_x : Q;
  rect_y : Q;
  rect_w : Q;
  rect_h : Q
}.

(** [a || b] on an optional number: [undefined] and [0] are falsy. *)
Definition or_number (a : option Q) (b : Q) : Q :=
  match a with
  | Some v => if Qeq_bool v 0 then b else v
  | None => b
  end.

(** [a || b] on an optional string: [undefined] and [''] are falsy. *)
Definition or_string (a : option string) (b : string) : string :=
  match a with
  | Some EmptyString => b
  | Some v => v
  | None => b
  end.

Definition timelineHeight (c : Canvas) : Q :=
  or_number (vis_timelineHeight c) (defaults_timelineHeight c).

Definition timelinePlacement (c : Canvas) : string :=
  or_string (vis_timelinePlacement c) (defaults_timelinePlacement c).

(** [render()]: the world afterwards and the rectangles filled on the
    controller's layer group, in order. *)
Definition render (c : Canvas) (w : World) : World * list FillRect :=
  if negb (visible (seg w)) || negb (inViewport w) then (w, [])
  else
    let w := if selected (seg w) then setColorDarken (1 # 2) w else w in
    let timelineTop :=
      String.eqb (timelinePlacement c) (defaults_timelinePlacement c) in
    let top :=
      if truthy (timelineLayer_isVisible c) && timelineTop
      then timelineHeight c else 0 in
    (w,
     [ {| fillStyle := color (seg w); rect_x := xStart w; rect_y := top;
          rect_w := width w; rect_h := height c |};
       {| fillStyle := handleColor (seg w); rect_x := xStart w;
          rect_y := top; rect_w := handleWidth (seg w);
          rect_h := height c |};
       {| fillStyle := handleColor (seg w);
          rect_x := xEnd w - handleWidth (seg w); rect_y := top;
          rect_w := handleWidth (seg w); rect_h := height c |} ]).

(** ** Delivery of pointer events

    The segment's own [mouseOver] and [mouseDown] events and the document's
    [mousemove] and [mouseup] events, handed to the handlers the segment
    registers for them. *)
Inductive PointerEvent : Type :=
| Over (e : MouseEvent)
| Down (e : MouseEvent)
| Move (e : MouseEvent)
| Up (e : MouseEvent).

Definition deliver (p : PointerEvent) (w : World) : World :=
  match p with
  | Over e => mouseOver e w
  | Down e => mouseDown e w
  | Move e => handleDrag e w
  | Up e => handleMouseUp e w
  end.

Definition deliver_all (ps : list PointerEvent) (w : World) : World :=
  fold_left (fun w p => deliver p w) ps w.

(** What one drag step of a grabbed segment makes happen, and what the
    release after a drag does. *)
Definition drag_effects : list Effect :=
  [PreventDefault; StopPropagation; Local SegmentEvents.update;
   Global regionUpdated].

Definition release_effects : list Effect :=
  [Local SegmentEvents.updateEnd; Global regionUpdatedEnd;
   DocumentRemove "mousemove"; DocumentRemove "mouseup"].

(** The transient interaction state, cleared. *)
Definition idle (s : Segment) : Segment :=
  set_isGrabbingEdge {| isRightEdge := false; isLeftEdge := false |}
    (set_draggingStartPosition None (set_isDragging false s)).

(** [options] with its [color] member replaced. *)
Definition with_opt_color (c : option Channels) (o : SegmentOptions)
    : SegmentOptions :=
  {| opt_id := opt_id o; opt_start := opt_start o; opt_end := opt_end o;
     opt_color := c; opt_selected := opt_selected o;
     opt_updateable := opt_updateable o; opt_deleteable := opt_deleteable o;
     opt_visible := opt_visible o |}.

(** [options] with the bounds of a serialised segment,
    [{ ...options, ...json }]. *)
Definition with_opt_bounds (json : Q * Q) (o : SegmentOptions)
    : SegmentOptions :=
  {| opt_id := opt_id o; opt_start := fst json; opt_end := snd json;
     opt_color := opt_color o; opt_selected := opt_selected o;
     opt_updateable := opt_updateable o; opt_deleteable := opt_deleteable o;
     opt_visible := opt_visible o |}.

(** [{ updateable: true }] *)
Definition unlock : PartialSegmentOptions :=
  {| p_id := None; p_start := None; p_end := None; p_color := None;
     p_selected := None; p_updateable := Some true; p_deleteable := None;
     p_visible := None |}.

(** [{ updateable: false }] *)
Definition lock : PartialSegmentOptions :=
  {| p_id := None; p_start := None; p_end := None; p_color := None;
     p_selected := None; p_updateable := Some false; p_deleteable := None;
     p_visible := None |}.

(** A segment a tenth of a second long, [{ start: 10, end: 10.1 }]: narrower
    than its handles, which span a fifth of a second here. *)
Definition narrow_world : World := modify (set_end_ (101 # 10)) demo_world.

(** A canvas 120 pixels high whose timeline, 32 pixels high, is shown at the
    default place. *)
Definition demo_canvas : Canvas :=
  {| height := 120; vis_timelineHeight := Some 32;
     vis_timelinePlacement := None; timelineLayer_isVisible := Some true;
     defaults_timelineHeight := 20; defaults_timelinePlacement := "top" |}.

(** ** The arithmetic of a drag step in IEEE doubles

    The bounds [handleDrag] hands to [updatePosition] and the bounds that
    commits (lines 245-259 and 376-384), on binary64 numbers with their
    rounding, their infinities and NaN.  [clamp] and [pixelsToTime] are
    modelled as above. *)

From Stdlib Require Import Floats.

Module Double.

(** [Math.min] and [Math.max]: NaN if either argument is, and [-0] below
    [+0]. *)
Definition Math_min (x y : float) : float :=
  if is_nan x || is_nan y then nan
  else if (x <? y)%float then x
  else if (y <? x)%float then y
  else if get_sign x then x else y.

Definition Math_max (x y : float) : float :=
  if is_nan x || is_nan y then nan
  else if (x <? y)%float then y
  else if (y <? x)%float then x
  else if get_sign x then y else x.

Definition clamp (value min max : float) : float :=
  Math_max min (Math_min max value).

Definition pixelsToTime (px effectiveWidth duration : float) : float :=
  (px / effectiveWidth * duration)%float.

(** The bounds [updatePosition(newStart, newEnd)] commits. *)
Definition updatePosition (newStart newEnd : float) : float * float :=
  if (newEnd <? newStart)%float then (newEnd, newStart)
  else (newStart, newEnd).

(** The bounds a drag step commits, from which edges were grabbed, what was
    recorded at pointer-down, where the pointer is and how the waveform is
    shown. *)
Definition handleDrag (isRightEdge isLeftEdge : bool)
    (grabPosition start end' : float)
    (cursorPositionX scrollLeft zoomedWidth duration : float)
    : float * float :=
  let freezeStart := isRightEdge in
  let freezeEnd := isLeftEdge in
  let isResizing := freezeStart || freezeEnd in
  let currentPosition := (cursorPositionX + scrollLeft)%float in
  let currentPosition :=
    if (currentPosition <? 0)%float then 0%float else currentPosition in
  let newPosition := (currentPosition - grabPosition)%float in
  let seconds := pixelsToTime newPosition zoomedWidth duration in
  let timeDiff := (end' - start)%float in
  let newStart :=
    if freezeEnd then (start + seconds)%float
    else clamp (start + seconds)%float 0%float (duration - timeDiff)%float in
  let startTime := if freezeStart then start else newStart in
  let endTime :=
    if freezeEnd then end'
    else clamp (end' + seconds)%float
           (newStart + (if isResizing then 0 else timeDiff))%float duration in
  updatePosition (clamp startTime 0%float duration)
    (clamp endTime 0%float duration).

End Double.

(** * Properties *)

(** ** Sanity of the example *)

Example demo_world_constructed :
  constructor demo_options "xxxxx" demo_waveform demo_visualizer
    demo_controller = Ok demo_world.
Proof. reflexivity. Qed.

Example long_world_constructed :
  constructor long_options "xxxxx" demo_waveform demo_visualizer
    demo_controller = Ok long_world.
Proof. reflexivity. Qed.

Example body_grabbed_state :
  draggingStartPosition (seg body_grabbed)
  = Some {| grabPosition := 150; grab_start := 10; grab_end := 20 |}
  /\ isGrabbingEdge (seg body_grabbed)
     = {| isRightEdge := false; isLeftEdge := false |}.
Proof. split; vm_compute; reflexivity. Qed.

Example left_grabbed_state :
  draggingStartPosition (seg left_grabbed)
  = Some {| grabPosition := 100; grab_start := 10; grab_end := 20 |}
  /\ isGrabbingEdge (seg left_grabbed)
     = {| isRightEdge := false; isLeftEdge := true |}.
Proof. split; vm_compute; reflexivity. Qed.

Example right_grabbed_state :
  draggingStartPosition (seg right_grabbed)
  = Some {| grabPosition := 200; grab_start := 10; grab_end := 20 |}
  /\ isGrabbingEdge (seg right_grabbed)
     = {| isRightEdge := true; isLeftEdge := false |}.
Proof. split; vm_compute; reflexivity. Qed.

(** The scenarios of the specification: dragging the body by five seconds,
    and dragging the left edge fifteen seconds to the left. *)
Example drag_body_by_5s :
  start (seg (handleDrag (pointer 200 20) body_grabbed)) == 15
  /\ end_ (seg (handleDrag (pointer 200 20) body_grabbed)) == 25.
Proof. split; vm_compute; reflexivity. Qed.

Example drag_left_edge_below_zero :
  start (seg (handleDrag (pointer (-50) (-5)) left_grabbed)) == 0
  /\ end_ (seg (handleDrag (pointer (-50) (-5)) left_grabbed)) == 20.
Proof. split; vm_compute; reflexivity. Qed.

(** ** Clamping *)

Lemma clamp_cases (v lo hi : Q) :
  lo <= hi ->
  (v <= lo /\ clamp v lo hi == lo)
  \/ (lo <= v <= hi /\ clamp v lo hi == v)
  \/ (hi <= v /\ clamp v lo hi == hi).
Proof.
  intros Hord. unfold clamp.
  destruct (Qlt_le_dec v hi) as [Hv | Hv];
    [destruct (Qlt_le_dec lo v) | destruct (Qlt_le_dec lo hi)].
  - right; left. split; [lra | reflexivity].
  - left. split; [lra | reflexivity].
  - right; right. split; [lra | reflexivity].
  - right; right. split; lra.
Qed.

Lemma clamp_ordered (v lo hi : Q) :
  lo <= hi -> lo <= clamp v lo hi <= hi.
Proof.
  intros Hord.
  destruct (clamp_cases v Hord) as [[? H] | [[? H] | [? H]]]; lra.
Qed.

(** Case analysis on a clamped value whose bounds are ordered. *)
Ltac clamp_split v lo hi :=
  let H := fresh "Hc" in
  let Hb := fresh "Hb" in
  assert (Hb : lo <= hi) by lra;
  destruct (clamp_cases v Hb) as [[? H] | [[? H] | [? H]]].

(** ** What [updatePosition] commits *)

Lemma updatePosition_bounds (a b : Q) (w : World) :
  updateable (seg w) = true ->
  let s' := seg (updatePosition (Some a) (Some b) w) in
  (b < a -> start s' = b /\ end_ s' = a) /\
  (a <= b -> start s' = a /\ end_ s' = b).
Proof.
  intros Hu. unfold updatePosition. rewrite Hu. simpl.
  destruct (Qlt_le_dec b a); simpl; split; intros;
    try (split; reflexivity); lra.
Qed.

(** Pointer-down records the segment's current bounds. *)
Lemma mouseDown_records_bounds (e : MouseEvent) (w : World) (g : GrabState) :
  draggingStartPosition (seg w) = None ->
  draggingStartPosition (seg (mouseDown e w)) = Some g ->
  grab_start g = start (seg w) /\ grab_end g = end_ (seg w)
  /\ isGrabbingEdge (seg (mouseDown e w)) = edgeGrabCheck e w.
Proof.
  unfold mouseDown. intros Hnone.
  destruct (negb (updateable (seg w))
            || negb (layerGroup_isVisible (controller w)));
    [rewrite Hnone; discriminate |].
  destruct (overrideKeyPressed e || isLocked (controller w));
    [rewrite Hnone; discriminate |].
  simpl. intros [= <-]. repeat split.
Qed.

(** ** Ordering of the bounds *)

(** C1, as stated, fails: the constructor and [update] commit
    [{ start: 20, end: 10 }] as given, so the start exceeds the end
    afterwards. *)
Lemma reversed_bounds_are_kept :
  constructor reversed_options "xxxxx" demo_waveform demo_visualizer
    demo_controller
  = Ok (modify (set_end_ 10) (modify (set_start 20) demo_world))
  /\ end_ (seg (modify (set_end_ 10) (modify (set_start 20) demo_world)))
     < start (seg (modify (set_end_ 10) (modify (set_start 20) demo_world)))
  /\ updateable (seg demo_world) = true
  /\ end_ (seg (update reversed_update demo_world))
     < start (seg (update reversed_update demo_world)).
Proof.
  repeat split; vm_compute; reflexivity.
Qed.

(** C1, amended: of the three mutations only [updatePosition] orders the
    bounds.  On an updateable segment it leaves [start <= end], swapping the
    new start and the new end (each defaulting to the current value) when the
    former exceeds the latter.  The constructor and [update] commit the
    provided start and end as they are given. *)
Theorem updatePosition_orders_bounds :
  forall (w : World) (a b : option Q) (p : PartialSegmentOptions)
         (options : SegmentOptions) (nanoid : string) (wf : Waveform)
         (vis : Visualizer) (ctl : Regions),
    updateable (seg w) = true ->
    let newStart := a ?? start (seg w) in
    let newEnd := b ?? end_ (seg w) in
    let s' := seg (updatePosition a b w) in
    start s' <= end_ s'
    /\ (newEnd < newStart -> start s' = newEnd /\ end_ s' = newStart)
    /\ (newStart <= newEnd -> start s' = newStart /\ end_ s' = newEnd)
    /\ start (seg (update p w)) = p_start p ?? start (seg w)
    /\ end_ (seg (update p w)) = p_end p ?? end_ (seg w)
    /\ (forall w0 : World,
          constructor options nanoid wf vis ctl = Ok w0 ->
          start (seg w0) = opt_start options
          /\ end_ (seg w0) = opt_end options).
Proof.
  intros w a b p options nanoid wf vis ctl Hu newStart newEnd s'.
  assert (Hpos :
    (newEnd < newStart -> start s' = newEnd /\ end_ s' = newStart)
    /\ (newStart <= newEnd -> start s' = newStart /\ end_ s' = newEnd)).
  { subst s'. unfold updatePosition. rewrite Hu. cbn [negb].
    fold newStart newEnd.
    destruct (Qlt_le_dec newEnd newStart); simpl; split; intros;
      try (split; reflexivity); lra. }
  destruct Hpos as [Hswap Hkeep].
  split; [| split; [exact Hswap | split; [exact Hkeep |] ] ].
  - destruct (Qlt_le_dec newEnd newStart) as [Hlt | Hle].
    + destruct (Hswap Hlt) as [-> ->]. lra.
    + destruct (Hkeep Hle) as [-> ->]. exact Hle.
  - assert (Hup : seg (update p w)
                  = assign (p_color p) (fun c => set_color (rgba c))
                      (assign (p_visible p) set_visible
                         (assign (p_selected p) set_selected
                            (assign (p_end p) set_end_
                               (assign (p_start p) set_start
                                  (assign (p_deleteable p) set_deleteable
                                     (assign (p_updateable p) set_updateable
                                        (seg w)))))))).
    { unfold update. rewrite Hu. reflexivity. }
    rewrite Hup.
    split; [| split].
    + destruct p as [pi [x |] [y |] [c |] [sl |] [u |] [d |] [v |] ];
        reflexivity.
    + destruct p as [pi [x |] [y |] [c |] [sl |] [u |] [d |] [v |] ];
        reflexivity.
    + intros w0. unfold constructor.
      destruct (Qlt_le_dec (opt_start options) 0); [discriminate |].
      destruct (Qlt_le_dec (opt_end options) 0); [discriminate |].
      intros [= <-]. split; reflexivity.
Qed.

Lemma updatePosition_orders_bounds_witness :
  updateable (seg demo_world) = true
  /\ start (seg (updatePosition (Some 25) (Some 20) demo_world)) = 20
  /\ end_ (seg (updatePosition (Some 25) (Some 20) demo_world)) = 25.
Proof.
  split; [reflexivity |].
  refine (proj1 (proj2 (@updatePosition_orders_bounds demo_world (Some 25)
            (Some 20) no_options demo_options "xxxxx"%string demo_waveform
            demo_visualizer demo_controller eq_refl)) _).
  vm_compute. reflexivity.
Defined.

(** ** Dragging *)

(** A drag step changes neither the permissions, nor what was recorded at
    pointer-down, nor the collaborators' geometry. *)
Lemma handleDrag_frame (e : MouseEvent) (w : World) :
  updateable (seg (handleDrag e w)) = updateable (seg w)
  /\ draggingStartPosition (seg (handleDrag e w))
     = draggingStartPosition (seg w)
  /\ isGrabbingEdge (seg (handleDrag e w)) = isGrabbingEdge (seg w)
  /\ duration (waveform (handleDrag e w)) = duration (waveform w)
  /\ visualizer (handleDrag e w) = visualizer w
  /\ controller (handleDrag e w) = controller w.
Proof.
  unfold handleDrag.
  destruct (updateable (seg w)) eqn:Hu; cbn [negb]; [| now rewrite Hu].
  destruct (draggingStartPosition (seg w)) as [g |] eqn:Hg;
    [| now rewrite Hu, Hg].
  cbv zeta. unfold updatePosition.
  match goal with
  | |- context [if ?b then switchCursor colResize true ?x else ?y] =>
      destruct b
  end; cbn -[clamp dragSeconds Qlt_le_dec]; rewrite Hu; cbn [negb];
    match goal with
    | |- context [Qlt_le_dec ?x ?y] => destruct (Qlt_le_dec x y)
    end; cbn; rewrite Hu, Hg; repeat split.
Qed.

(** The bounds a drag step commits, whatever was grabbed. *)
Lemma handleDrag_commits (e : MouseEvent) (w : World) (g : GrabState) :
  updateable (seg w) = true ->
  draggingStartPosition (seg w) = Some g ->
  let freezeStart := isRightEdge (isGrabbingEdge (seg w)) in
  let freezeEnd := isLeftEdge (isGrabbingEdge (seg w)) in
  let D := duration (waveform w) in
  let seconds := dragSeconds e g w in
  let timeDiff := grab_end g - grab_start g in
  let newStart :=
    if freezeEnd then grab_start g + seconds
    else clamp (grab_start g + seconds) 0 (D - timeDiff) in
  let startTime := if freezeStart then grab_start g else newStart in
  let endTime :=
    if freezeEnd then grab_end g
    else clamp (grab_end g + seconds)
           (newStart + (if freezeStart || freezeEnd then 0 else timeDiff)) D in
  let s' := seg (handleDrag e w) in
  (clamp endTime 0 D < clamp startTime 0 D ->
   start s' = clamp endTime 0 D /\ end_ s' = clamp startTime 0 D)
  /\ (clamp startTime 0 D <= clamp endTime 0 D ->
      start s' = clamp startTime 0 D /\ end_ s' = clamp endTime 0 D).
Proof.
  intros Hu Hg. cbv zeta.
  unfold handleDrag. rewrite Hu, Hg. cbn [negb].
  cbn -[clamp updatePosition dragSeconds Qplus Qminus Qle Qlt].
  change (dragSeconds e g
            (modify (set_isDragging true)
               (emit StopPropagation (emit PreventDefault w))))
    with (dragSeconds e g w).
  destruct (isRightEdge (isGrabbingEdge (seg w))),
           (isLeftEdge (isGrabbingEdge (seg w)));
    cbn [orb];
    match goal with
    | |- context [updatePosition _ _ ?w1] =>
        exact (@updatePosition_bounds _ _ w1 Hu)
    end.
Qed.

(** Moving as a unit: the clamped start and end stay one width apart and
    within the waveform. *)
Lemma move_arithmetic (gs ge D sec : Q) :
  0 <= gs -> gs <= ge -> ge <= D ->
  let NS := clamp (gs + sec) 0 (D - (ge - gs)) in
  let NE := clamp (ge + sec) (NS + (ge - gs)) D in
  clamp NS 0 D == NS /\ clamp NE 0 D == NE
  /\ NE == NS + (ge - gs) /\ 0 <= NS /\ NE <= D.
Proof.
  intros H0 Hse Hd NS NE.
  assert (HNS : 0 <= NS <= D - (ge - gs) /\ NE == NS + (ge - gs)).
  { subst NE NS. clamp_split (gs + sec) 0 (D - (ge - gs));
      match goal with |- context [clamp (ge + sec) ?lo D] =>
        clamp_split (ge + sec) lo D end; lra. }
  assert (HS : clamp NS 0 D == NS) by (clamp_split NS 0 D; lra).
  assert (HE : clamp NE 0 D == NE) by (clamp_split NE 0 D; lra).
  repeat split; lra.
Qed.

(** C2, as stated, fails on two counts.  In doubles the code rounds
    [start + seconds] and [end + seconds] separately: the demo segment
    grabbed at pixel 150 and moved to pixel 111 is committed as
    [(6.0999999999999996, 16.100000000000001)], which is
    [10.000000000000002] wide and not [10].  And where the zoomed width is 0
    and the pointer has not moved, the time travelled is [0 / 0]: both bounds
    are committed as NaN, which lies in no range. *)
Lemma drag_rounds_the_two_sums_apart :
  Double.handleDrag false false 150 10 20 111 0 1000 100
  = (0x1.8666666666666p+2, 0x1.019999999999ap+4)%float
  /\ (0x1.019999999999ap+4 - 0x1.8666666666666p+2)%float
     = 0x1.4000000000001p+3%float
  /\ (0x1.4000000000001p+3 =? 20 - 10)%float = false
  /\ Double.handleDrag false false 150 10 20 150 0 0 100 = (nan, nan)
  /\ (0 <=? nan)%float = false.
Proof.
  repeat split; vm_compute; reflexivity.
Qed.

(** Where no rounding occurs the two embeddings agree: the scenario of the
    specification, a body drag by five seconds, in doubles. *)
Example drag_body_by_5s_in_doubles :
  Double.handleDrag false false 150 10 20 200 0 1000 100 = (15, 25)%float.
Proof. vm_compute. reflexivity. Qed.

(** C2, amended: where the zoomed width is not 0, a drag step of a segment
    grabbed by its body, with [0 <= start <= end <= duration] recorded at
    grab time, commits bounds within [[0, duration]] with the start not after
    the end, wherever the pointer is; and in exact arithmetic, that is up to
    the rounding of the sums [start + seconds] and [end + seconds], the
    committed width is the width recorded at grab time. *)
Theorem handleDrag_move_keeps_width :
  forall (e : MouseEvent) (w : World) (g : GrabState),
    updateable (seg w) = true ->
    draggingStartPosition (seg w) = Some g ->
    isLeftEdge (isGrabbingEdge (seg w)) = false ->
    isRightEdge (isGrabbingEdge (seg w)) = false ->
    ~ zoomedWidth (visualizer w) == 0 ->
    0 <= grab_start g ->
    grab_start g <= grab_end g ->
    grab_end g <= duration (waveform w) ->
    let s' := seg (handleDrag e w) in
    end_ s' - start s' == grab_end g - grab_start g
    /\ 0 <= start s' /\ start s' <= end_ s'
    /\ end_ s' <= duration (waveform w).
Proof.
  intros e w g Hu Hg Hl Hr Hzoom H0 Hse Hd s'. subst s'.
  destruct (@handleDrag_commits e w g Hu Hg) as [Hswap Hkeep].
  rewrite Hl, Hr in Hswap, Hkeep. cbn [orb] in Hswap, Hkeep.
  destruct (@move_arithmetic (grab_start g) (grab_end g)
              (duration (waveform w)) (dragSeconds e g w) H0 Hse Hd)
    as (HS & HE & Hwidth & Hlow & Hhigh).
  match type of Hkeep with
  | ?S <= ?E -> _ => destruct (Qlt_le_dec E S) as [Hlt | Hle]
  end.
  - lra.
  - destruct (Hkeep Hle) as [-> ->]. lra.
Qed.

Lemma handleDrag_move_keeps_width_witness :
  end_ (seg (handleDrag (pointer 2000 200) body_grabbed))
  - start (seg (handleDrag (pointer 2000 200) body_grabbed)) == 20 - 10
  /\ 0 <= start (seg (handleDrag (pointer 2000 200) body_grabbed))
  /\ start (seg (handleDrag (pointer 2000 200) body_grabbed))
     <= end_ (seg (handleDrag (pointer 2000 200) body_grabbed))
  /\ end_ (seg (handleDrag (pointer 2000 200) body_grabbed)) <= 100.
Proof.
  refine (@handleDrag_move_keeps_width (pointer 2000 200) body_grabbed
            {| grabPosition := 150; grab_start := 10; grab_end := 20 |}
            eq_refl eq_refl eq_refl eq_refl _ _ _ _);
    vm_compute; discriminate.
Defined.

(** Along a whole gesture: once a segment with [0 <= start <= end <= duration]
    has been grabbed by its body, every further pointer position leaves it
    as wide as it was and within the waveform. *)
Lemma drag_steps_frame (es : list MouseEvent) (w : World) :
  updateable (seg (drag_steps es w)) = updateable (seg w)
  /\ draggingStartPosition (seg (drag_steps es w))
     = draggingStartPosition (seg w)
  /\ isGrabbingEdge (seg (drag_steps es w)) = isGrabbingEdge (seg w)
  /\ duration (waveform (drag_steps es w)) = duration (waveform w).
Proof.
  revert w. induction es as [| e es IH]; intros w; [repeat split |].
  cbn [drag_steps fold_left]. fold (drag_steps es (handleDrag e w)).
  destruct (IH (handleDrag e w)) as (-> & -> & -> & ->).
  destruct (handleDrag_frame e w) as (-> & -> & -> & -> & _).
  repeat split.
Qed.

Lemma move_gesture_keeps_width (e0 : MouseEvent) (es : list MouseEvent)
    (e : MouseEvent) (w : World) :
  updateable (seg w) = true ->
  layerGroup_isVisible (controller w) = true ->
  overrideKeyPressed e0 = false ->
  isLocked (controller w) = false ->
  edgeGrabCheck e0 w = {| isRightEdge := false; isLeftEdge := false |} ->
  0 <= start (seg w) ->
  start (seg w) <= end_ (seg w) ->
  end_ (seg w) <= duration (waveform w) ->
  let w' := drag_steps (es ++ [e]) (mouseDown e0 w) in
  end_ (seg w') - start (seg w') == end_ (seg w) - start (seg w)
  /\ 0 <= start (seg w') /\ start (seg w') <= end_ (seg w')
  /\ end_ (seg w') <= duration (waveform w).
Proof.
  intros Hu Hvis Hkey Hlock Hedge H0 Hse Hd w'.
  set (g := {| grabPosition :=
                 cursorPositionX e0 + getScrollLeft (visualizer w);
               grab_start := start (seg w); grab_end := end_ (seg w) |}).
  assert (Harmed :
    updateable (seg (mouseDown e0 w)) = true
    /\ draggingStartPosition (seg (mouseDown e0 w)) = Some g
    /\ isGrabbingEdge (seg (mouseDown e0 w))
       = {| isRightEdge := false; isLeftEdge := false |}
    /\ duration (waveform (mouseDown e0 w)) = duration (waveform w)).
  { unfold mouseDown. rewrite Hu, Hvis, Hkey, Hlock. cbn [negb orb].
    cbn -[edgeGrabCheck]. repeat split; try assumption. }
  subst w'. unfold drag_steps. rewrite fold_left_app. cbn [fold_left].
  fold (drag_steps es (mouseDown e0 w)).
  destruct (drag_steps_frame es (mouseDown e0 w)) as (Hu' & Hg' & He' & Hd').
  destruct Harmed as (Hu0 & Hg0 & He0 & Hd0).
  rewrite Hu0 in Hu'. rewrite Hg0 in Hg'. rewrite He0 in He'.
  rewrite Hd0 in Hd'.
  destruct (@handleDrag_commits e (drag_steps es (mouseDown e0 w)) g Hu' Hg')
    as [Hswap Hkeep].
  rewrite He', Hd' in Hswap, Hkeep. cbn [orb isRightEdge isLeftEdge] in *.
  destruct (@move_arithmetic (start (seg w)) (end_ (seg w))
              (duration (waveform w))
              (dragSeconds e g (drag_steps es (mouseDown e0 w))) H0 Hse Hd)
    as (HS & HE & Hwidth & Hlow & Hhigh).
  change (grab_start g) with (start (seg w)) in *.
  change (grab_end g) with (end_ (seg w)) in *.
  match type of Hkeep with
  | ?S <= ?E -> _ => destruct (Qlt_le_dec E S) as [Hlt | Hle]
  end.
  - lra.
  - destruct (Hkeep Hle) as [-> ->]. lra.
Qed.




(** ** The guard of [update] *)

(** C4, as stated, fails: on a segment that is not updateable,
    [update({ start: 5 })] does not set [updateable] to true and still moves
    the start. *)
Lemma update_on_locked_segment_applies :
  updateable (seg locked_world) = false
  /\ p_updateable (start_only 5) = None
  /\ start (seg locked_world) = 10
  /\ start (seg (update (start_only 5) locked_world)) = 5
  /\ update (start_only 5) locked_world <> locked_world.
Proof.
  repeat split. intros H.
  apply (f_equal (fun w => start (seg w))) in H. discriminate H.
Qed.

(** C4, amended: [update] refuses, leaving the world as it is, only when the
    segment is not updateable and the options explicitly set [updateable] to
    false.  In every other case (the segment is updateable, or the options
    leave [updateable] out or set it to true) each of [updateable],
    [deleteable], [start], [end], [selected], [visible] and [color] takes the
    provided value if there is one and keeps its value otherwise; [id] and
    all other fields keep their values, and nothing is notified. *)
Theorem update_applies_unless_kept_locked :
  forall (options : PartialSegmentOptions) (w : World),
    (updateable (seg w) = false ->
     p_updateable options = Some false ->
     update options w = w)
    /\ (updateable (seg w) = true \/ p_updateable options <> Some false ->
        let s := seg w in
        let s' := seg (update options w) in
        updateable s' = p_updateable options ?? updateable s
        /\ deleteable s' = p_deleteable options ?? deleteable s
        /\ start s' = p_start options ?? start s
        /\ end_ s' = p_end options ?? end_ s
        /\ selected s' = p_selected options ?? selected s
        /\ visible s' = p_visible options ?? visible s
        /\ color s' = match p_color options with
                      | Some c => rgba c
                      | None => color s
                      end
        /\ id s' = id s
        /\ handleColor s' = handleColor s
        /\ highlighted s' = highlighted s
        /\ handleWidth s' = handleWidth s
        /\ isDragging s' = isDragging s
        /\ draggingStartPosition s' = draggingStartPosition s
        /\ isGrabbingEdge s' = isGrabbingEdge s
        /\ super s' = super s
        /\ waveform (update options w) = waveform w
        /\ visualizer (update options w) = visualizer w
        /\ controller (update options w) = controller w
        /\ trace (update options w) = trace w).
Proof.
  intros options w. split.
  - intros Hu Hp. unfold update. rewrite Hu, Hp. reflexivity.
  - intros Hgo s s'.
    assert (Hguard :
      negb (updateable (seg w))
      && match p_updateable options with
         | Some u => negb u
         | None => false
         end = false).
    { destruct Hgo as [Hu | Hp].
      - rewrite Hu. reflexivity.
      - destruct (p_updateable options) as [[|]|];
          [| contradiction Hp; reflexivity |];
          apply andb_false_r. }
    subst s'. unfold update. rewrite Hguard. subst s.
    destruct options as [pi [x |] [y |] [c |] [sl |] [u |] [d |] [v |] ];
      repeat split.
Qed.

Lemma update_applies_unless_kept_locked_witness :
  update keep_locked locked_world = locked_world
  /\ start (seg (update (start_only 5) locked_world)) = 5.
Proof.
  split.
  - exact (proj1 (update_applies_unless_kept_locked keep_locked locked_world)
             eq_refl eq_refl).
  - refine (proj1 (proj2 (proj2
              (proj2 (update_applies_unless_kept_locked (start_only 5)
                        locked_world) (or_intror _))))).
    discriminate.
Defined.

(** ** Destruction *)

(** C5, as stated, fails: after [destroy()] the demo segment still accepts
    [updatePosition(30, 40)] and [update({ start: 5 })]. *)
Lemma destroyed_segment_is_repositioned :
  deleteable (seg demo_world) = true
  /\ isDestroyed (super (seg (destroy true demo_world))) = true
  /\ toJSON (destroy true demo_world) = (10, 20)
  /\ toJSON (updatePosition (Some 30) (Some 40) (destroy true demo_world))
     = (30, 40)
  /\ toJSON (update (start_only 5) (destroy true demo_world)) = (5, 20).
Proof.
  repeat split.
Qed.

(** C5, amended: [destroy()] on a deleteable segment that is not destroyed
    yet marks it destroyed, releases its listeners and changes no other
    field, and a further [destroy()] does nothing.  The mutation operations
    never look at the destroyed mark: [update], [updatePosition],
    [updateColor], [setVisibility], [handleSelected] and [handleHighlighted]
    change the fields of a destroyed segment exactly as they change those of
    the same segment before its destruction. *)
Theorem destroy_does_not_block_mutation :
  forall (notify : bool) (w : World),
    deleteable (seg w) = true ->
    isDestroyed (super (seg w)) = false ->
    let d := destroy notify w in
    let gone := Events_destroy (super (seg w)) in
    isDestroyed (super (seg d)) = true
    /\ handlers (super (seg d)) = []
    /\ seg d = set_super gone (seg w)
    /\ (forall again : bool, destroy again d = d)
    /\ (forall p, seg (update p d) = set_super gone (seg (update p w)))
    /\ (forall a b,
          seg (updatePosition a b d)
          = set_super gone (seg (updatePosition a b w)))
    /\ (forall c,
          seg (updateColor c d) = set_super gone (seg (updateColor c w)))
    /\ (forall v,
          seg (setVisibility v d) = set_super gone (seg (setVisibility v w)))
    /\ (forall sel,
          seg (handleSelected sel d)
          = set_super gone (seg (handleSelected sel w)))
    /\ (forall hl,
          seg (handleHighlighted hl d)
          = set_super gone (seg (handleHighlighted hl w))).
Proof.
  intros notify w Hdel Hlive d gone.
  assert (Hd : d = modify (set_super gone) (if notify then remove w else w)).
  { subst d. unfold destroy. rewrite Hdel, Hlive. simpl.
    destruct notify; reflexivity. }
  assert (Hseg : seg d = set_super gone (seg w)).
  { rewrite Hd. unfold remove. rewrite Hdel. destruct notify; reflexivity. }
  assert (Hwf : waveform d = waveform w).
  { rewrite Hd. unfold remove. rewrite Hdel. destruct notify; reflexivity. }
  split; [rewrite Hseg; reflexivity |].
  split; [rewrite Hseg; reflexivity |].
  split; [exact Hseg |].
  split.
  { intros again. unfold destroy at 1. rewrite Hseg. simpl.
    rewrite orb_true_r. reflexivity. }
  split.
  { intros p. unfold update, modify. rewrite Hseg. simpl.
    destruct (negb (updateable (seg w)) && _); [exact Hseg |].
    destruct p as [pi [x |] [y |] [c |] [sl |] [u |] [dl |] [v |] ];
      reflexivity. }
  split.
  { intros a b. unfold updatePosition. rewrite Hseg. simpl.
    destruct (updateable (seg w)); simpl; [| exact Hseg].
    destruct (Qlt_le_dec (b ?? end_ (seg w)) (a ?? start (seg w)));
      simpl; rewrite Hseg; reflexivity. }
  split.
  { intros c. unfold updateColor. rewrite Hseg. simpl.
    destruct (updateable (seg w)); simpl; [| exact Hseg].
    rewrite Hseg. reflexivity. }
  split.
  { intros v. unfold setVisibility. rewrite Hseg. simpl.
    destruct (Bool.eqb v (visible (seg w))); simpl; [exact Hseg |].
    rewrite Hseg. reflexivity. }
  split.
  { intros sel. unfold handleSelected. rewrite Hseg, Hwf. simpl.
    destruct (updateable (seg w)); simpl; [| exact Hseg].
    unfold setColorDarken, color_reset.
    destruct (playing (waveform w)), (truthy sel); simpl; rewrite Hseg; simpl;
      try reflexivity;
      destruct (Channels_eqb _ _); simpl; try rewrite Hseg; reflexivity. }
  { intros hl. unfold handleHighlighted. rewrite Hseg. simpl.
    destruct (updateable (seg w)); simpl; [| exact Hseg].
    destruct (selected (seg w)); simpl; [exact Hseg |].
    unfold setColorDarken, color_reset. simpl. rewrite Hseg. simpl.
    destruct (hl ?? negb (highlighted (seg w))); simpl;
      [destruct (Channels_eqb _ _); simpl |]; rewrite ?Hseg; reflexivity. }
Qed.

Lemma destroy_does_not_block_mutation_witness :
  isDestroyed (super (seg (destroy true demo_world))) = true
  /\ seg (updatePosition (Some 30) (Some 40) (destroy true demo_world))
     = set_super (Events_destroy (super (seg demo_world)))
         (seg (updatePosition (Some 30) (Some 40) demo_world)).
Proof.
  pose proof (@destroy_does_not_block_mutation true demo_world
                eq_refl eq_refl) as H.
  split.
  - exact (proj1 H).
  - exact (proj1 (proj2 (proj2 (proj2 (proj2 (proj2 H))))) (Some 30) (Some 40)).
Defined.

(** ** Construction *)

(** C6: the constructor throws exactly when the start or the end is negative;
    otherwise it returns a segment whose start and end are the given ones. *)
Theorem constructor_throws_iff_negative :
  forall (options : SegmentOptions) (nanoid : string) (wf : Waveform)
         (vis : Visualizer) (ctl : Regions),
    ((exists message, constructor options nanoid wf vis ctl = Throw message)
     <-> (opt_start options < 0 \/ opt_end options < 0))
    /\ (0 <= opt_start options ->
        0 <= opt_end options ->
        exists w,
          constructor options nanoid wf vis ctl = Ok w
          /\ start (seg w) = opt_start options
          /\ end_ (seg w) = opt_end options).
Proof.
  intros options nanoid wf vis ctl. unfold constructor.
  destruct (Qlt_le_dec (opt_start options) 0) as [Hs | Hs];
    [| destruct (Qlt_le_dec (opt_end options) 0) as [He | He] ].
  - split.
    + split; [intros _; left; exact Hs | intros _; eexists; reflexivity].
    + intros H0 _. lra.
  - split.
    + split; [intros _; right; exact He | intros _; eexists; reflexivity].
    + intros _ H0. lra.
  - split.
    + split; [intros [message H]; discriminate H | intros [H | H]; lra].
    + intros _ _. eexists. repeat split.
Qed.

Lemma constructor_throws_iff_negative_witness :
  0 <= opt_start reversed_options
  /\ 0 <= opt_end reversed_options
  /\ exists w,
       constructor reversed_options "xxxxx" demo_waveform demo_visualizer
         demo_controller = Ok w
       /\ start (seg w) = 20 /\ end_ (seg w) = 10.
Proof.
  assert (H0 : 0 <= opt_start reversed_options) by (vm_compute; discriminate).
  assert (H1 : 0 <= opt_end reversed_options) by (vm_compute; discriminate).
  split; [exact H0 | split; [exact H1 |] ].
  exact (proj2 (constructor_throws_iff_negative reversed_options
                  "xxxxx"%string demo_waveform demo_visualizer
                  demo_controller) H0 H1).
Defined.

(** ** Geometry *)

(** C7: the pixel getters are the stated expressions of the time bounds, and
    a segment from second 10 to second 20 of a 100-second waveform, shown
    1000 pixels wide at zoom 1 and not scrolled, spans pixels 100 to 200. *)
Theorem geometry_getters :
  forall w : World,
    xStart w
    == ((start (seg w) / duration (waveform w)) * vis_width (visualizer w)
        - vis_width (visualizer w) * getScrollLeft (visualizer w))
       * zoom (waveform w)
    /\ width w
       == ((end_ (seg w) - start (seg w)) / duration (waveform w)
           * vis_width (visualizer w)) * zoom (waveform w)
    /\ xEnd w == xStart w + width w
    /\ (start (seg w) == 10 ->
        end_ (seg w) == 20 ->
        duration (waveform w) == 100 ->
        zoom (waveform w) == 1 ->
        vis_width (visualizer w) == 1000 ->
        getScrollLeft (visualizer w) == 0 ->
        xStart w == 100 /\ width w == 100 /\ xEnd w == 200).
Proof.
  intros w. unfold xEnd, xStart, width.
  split; [reflexivity | split; [reflexivity | split; [reflexivity |] ] ].
  intros Hstart Hend Hduration Hzoom Hwidth Hscroll.
  rewrite Hstart, Hend, Hduration, Hzoom, Hwidth, Hscroll.
  repeat split; reflexivity.
Qed.

Lemma geometry_getters_witness :
  xStart demo_world == 100 /\ width demo_world == 100
  /\ xEnd demo_world == 200.
Proof.
  refine (proj2 (proj2 (proj2 (geometry_getters demo_world))) _ _ _ _ _ _);
    reflexivity.
Defined.

(** ** Selection *)

(** The fields of the segment after [handleSelected(sel)] with an explicit
    argument. *)
Lemma handleSelected_seg (sel : bool) (w : World) :
  updateable (seg w) = true ->
  seg (handleSelected (Some sel) w)
  = if sel
    then if Channels_eqb (RgbaColorArray.rgba (color (seg w)))
              (RgbaColorArray.base (color (seg w)))
         then set_color (RgbaColorArray.darken (1 # 2) (color (seg w)))
                (set_selected true (seg w))
         else set_selected true (seg w)
    else set_color (RgbaColorArray.reset (color (seg w)))
           (set_selected false (seg w)).
Proof.
  intros Hu. unfold handleSelected. rewrite Hu. cbn [negb truthy].
  unfold setColorDarken, color_reset.
  destruct (playing (waveform w)), sel; simpl;
    try destruct (Channels_eqb _ _); reflexivity.
Qed.

(** C8: on an updateable segment whose color is at its base value,
    [handleSelected(true)] darkens the color by a half and
    [handleSelected(false)] afterwards brings it back to the base value,
    leaving the segment deselected. *)
Theorem select_then_deselect_restores_color :
  forall w : World,
    updateable (seg w) = true ->
    Channels_eqb (RgbaColorArray.rgba (color (seg w)))
      (RgbaColorArray.base (color (seg w))) = true ->
    let w1 := handleSelected (Some true) w in
    let w2 := handleSelected (Some false) w1 in
    selected (seg w1) = true
    /\ color (seg w1) = RgbaColorArray.darken (1 # 2) (color (seg w))
    /\ selected (seg w2) = false
    /\ RgbaColorArray.rgba (color (seg w2))
       = RgbaColorArray.base (color (seg w))
    /\ RgbaColorArray.base (color (seg w2))
       = RgbaColorArray.base (color (seg w)).
Proof.
  intros w Hu Hbase w1 w2.
  assert (H1 : seg w1
               = set_color (RgbaColorArray.darken (1 # 2) (color (seg w)))
                   (set_selected true (seg w))).
  { subst w1. rewrite (handleSelected_seg true w Hu), Hbase. reflexivity. }
  assert (Hu1 : updateable (seg w1) = true) by (rewrite H1; exact Hu).
  subst w2. rewrite (handleSelected_seg false w1 Hu1), H1.
  repeat split.
Qed.

Lemma select_then_deselect_restores_color_witness :
  selected (seg (handleSelected (Some false)
                   (handleSelected (Some true) demo_world))) = false
  /\ RgbaColorArray.rgba
       (color (seg (handleSelected (Some false)
                      (handleSelected (Some true) demo_world)))) = ccc.
Proof.
  pose proof (@select_then_deselect_restores_color demo_world
                eq_refl eq_refl) as H.
  split.
  - exact (proj1 (proj2 (proj2 H))).
  - exact (proj1 (proj2 (proj2 (proj2 H)))).
Defined.

(** ** Removal *)

(** C9: [remove()] on a segment that is not deleteable notifies nothing and
    changes nothing; on a deleteable segment it fires the global
    [regionRemoved] notification once and changes no field. *)
Theorem remove_notifies_when_deleteable :
  forall w : World,
    (deleteable (seg w) = false -> remove w = w)
    /\ (deleteable (seg w) = true ->
        trace (remove w) = trace w ++ [Global regionRemoved]
        /\ count_occ Effect_eq_dec (trace (remove w)) (Global regionRemoved)
           = S (count_occ Effect_eq_dec (trace w) (Global regionRemoved))
        /\ seg (remove w) = seg w
        /\ waveform (remove w) = waveform w
        /\ visualizer (remove w) = visualizer w
        /\ controller (remove w) = controller w).
Proof.
  intros w. unfold remove. split; intros Hd; rewrite Hd.
  - reflexivity.
  - simpl. repeat split.
    rewrite count_occ_app. simpl. lia.
Qed.

Lemma remove_notifies_when_deleteable_witness :
  remove (update clear_deleteable demo_world)
  = update clear_deleteable demo_world
  /\ trace (remove demo_world) = [Global regionRemoved].
Proof.
  split.
  - exact (proj1 (remove_notifies_when_deleteable
                    (update clear_deleteable demo_world)) eq_refl).
  - exact (proj1 (proj2 (remove_notifies_when_deleteable demo_world)
                    eq_refl)).
Defined.

(** [update({ deleteable: false })] is never refused. *)
Lemma update_clears_deleteable (w : World) :
  deleteable (seg (update clear_deleteable w)) = false.
Proof.
  unfold update. simpl. rewrite andb_false_r. reflexivity.
Qed.

(** C10: the constructor never reads [options.deleteable]: whatever it is, the
    constructed segment is deleteable, so [remove()] notifies and [destroy()]
    goes through, until [update({ deleteable: false })] clears the flag. *)
Theorem constructor_ignores_deleteable :
  forall (options : SegmentOptions) (nanoid : string) (wf : Waveform)
         (vis : Visualizer) (ctl : Regions) (w : World),
    constructor options nanoid wf vis ctl = Ok w ->
    (forall d : option bool,
       constructor (with_opt_deleteable d options) nanoid wf vis ctl = Ok w)
    /\ deleteable (seg w) = true
    /\ trace (remove w) = [Global regionRemoved]
    /\ (forall notify : bool,
          isDestroyed (super (seg (destroy notify w))) = true)
    /\ trace (destroy true w) = [Global regionRemoved]
    /\ deleteable (seg (update clear_deleteable w)) = false
    /\ remove (update clear_deleteable w) = update clear_deleteable w
    /\ (forall notify : bool,
          destroy notify (update clear_deleteable w)
          = update clear_deleteable w).
Proof.
  intros options nanoid wf vis ctl w. unfold constructor.
  cbn [with_opt_deleteable opt_start opt_end].
  destruct (Qlt_le_dec (opt_start options) 0); [discriminate |].
  destruct (Qlt_le_dec (opt_end options) 0); [discriminate |].
  intros [= <-].
  split; [intros d; reflexivity |].
  split; [reflexivity |].
  split; [reflexivity |].
  split; [intros [|]; reflexivity |].
  split; [reflexivity |].
  split; [apply update_clears_deleteable |].
  split.
  - unfold remove. rewrite update_clears_deleteable. reflexivity.
  - intros notify. unfold destroy. rewrite update_clears_deleteable.
    reflexivity.
Qed.

Lemma constructor_ignores_deleteable_witness :
  opt_deleteable demo_options = Some false
  /\ deleteable (seg demo_world) = true
  /\ trace (remove demo_world) = [Global regionRemoved].
Proof.
  pose proof (@constructor_ignores_deleteable demo_options "xxxxx"%string
                demo_waveform demo_visualizer demo_controller demo_world
                eq_refl) as H.
  split; [reflexivity |].
  split.
  - exact (proj1 (proj2 H)).
  - exact (proj1 (proj2 (proj2 H))).
Defined.

(** * Further properties *)

(** ** Geometry *)

Lemma width_sign (w : World) :
  0 < duration (waveform w) ->
  0 < vis_width (visualizer w) ->
  0 < zoom (waveform w) ->
  (start (seg w) <= end_ (seg w) -> 0 <= width w)
  /\ (start (seg w) < end_ (seg w) -> 0 < width w)
  /\ (end_ (seg w) < start (seg w) -> width w < 0).
Proof.
  intros Hd Hw Hz. unfold width, Qdiv.
  set (dt := end_ (seg w) - start (seg w)).
  assert (Hk : 0 < / duration (waveform w) * vis_width (visualizer w)
                   * zoom (waveform w)).
  { repeat apply Qmult_lt_0_compat; try assumption.
    apply Qinv_lt_0_compat. exact Hd. }
  set (k := / duration (waveform w) * vis_width (visualizer w)
            * zoom (waveform w)) in *.
  assert (Heq : dt * / duration (waveform w) * vis_width (visualizer w)
                * zoom (waveform w) == dt * k) by (subst k; ring).
  rewrite Heq.
  repeat split; intros Hord.
  - apply Qmult_le_0_compat; [subst dt; lra | lra].
  - apply Qmult_lt_0_compat; [subst dt; lra | exact Hk].
  - assert (H : 0 < (- dt) * k)
      by (apply Qmult_lt_0_compat; [subst dt; lra | exact Hk]).
    assert (H' : (- dt) * k == - (dt * k)) by ring.
    rewrite H' in H. lra.
Qed.

(** X1: in a waveform of positive duration shown at a positive width and
    zoom, the pixel interval has the orientation of the time interval: an
    ordered segment has a non-negative pixel width, and the width is zero
    exactly when start and end coincide. *)
Theorem width_follows_time_order :
  forall w : World,
    0 < duration (waveform w) ->
    0 < vis_width (visualizer w) ->
    0 < zoom (waveform w) ->
    (start (seg w) <= end_ (seg w) <-> xStart w <= xEnd w)
    /\ (start (seg w) == end_ (seg w) <-> width w == 0).
Proof.
  intros w Hd Hw Hz.
  destruct (width_sign w Hd Hw Hz) as (Hle & Hlt & Hgt).
  unfold xEnd. split; split; intros H.
  - specialize (Hle H). lra.
  - destruct (Qlt_le_dec (end_ (seg w)) (start (seg w))) as [Hrev | Hord];
      [specialize (Hgt Hrev); lra | exact Hord].
  - destruct (Qlt_le_dec (start (seg w)) (end_ (seg w))) as [Hlt' | Hge].
    + lra.
    + unfold width. setoid_replace (end_ (seg w) - start (seg w)) with 0
        by lra. unfold Qdiv. ring.
  - destruct (Qlt_le_dec (start (seg w)) (end_ (seg w))) as [Hlt' | Hge].
    + specialize (Hlt Hlt'). lra.
    + destruct (Qlt_le_dec (end_ (seg w)) (start (seg w))) as [Hrev | Hord].
      * specialize (Hgt Hrev). lra.
      * lra.
Qed.

Lemma width_follows_time_order_witness :
  xStart demo_world <= xEnd demo_world.
Proof.
  refine (proj1 (proj1 (@width_follows_time_order demo_world _ _ _)) _);
    vm_compute; try reflexivity; discriminate.
Defined.

(** X2: a segment whose pixel interval is ordered is in the viewport exactly
    when it overlaps the open pixel range [(0, width * zoom)]: its right end
    lies right of pixel 0 and its left end lies left of the viewport's
    right end.  A segment that only touches either end of the viewport is
    outside. *)
Theorem inViewport_iff_overlap :
  forall w : World,
    xStart w <= xEnd w ->
    (inViewport w = true
     <-> 0 < xEnd w
         /\ xStart w < vis_width (visualizer w) * zoom (waveform w)).
Proof.
  intros w Hord. unfold inViewport. cbv zeta.
  set (W := vis_width (visualizer w) * zoom (waveform w)).
  destruct (Qle_bool (xStart w) 0) eqn:H1;
    destruct (Qle_bool (xEnd w) 0) eqn:H2;
    destruct (Qle_bool W (xStart w)) eqn:H3;
    destruct (Qle_bool W (xEnd w)) eqn:H4;
    cbn [andb];
    repeat match goal with
           | H : Qle_bool _ _ = true |- _ => apply Qle_bool_iff in H
           | H : Qle_bool ?x ?y = false |- _ =>
               assert (y < x)
                 by (apply Qnot_le_lt; intros Hc;
                     apply Qle_bool_iff in Hc; congruence);
               clear H
           end;
    split; intros Hin; try discriminate; try reflexivity;
    try (split; lra); try (destruct Hin; lra).
Qed.

Lemma inViewport_iff_overlap_witness :
  inViewport demo_world = true.
Proof.
  refine (proj2 (@inViewport_iff_overlap demo_world _) _).
  - vm_compute. discriminate.
  - split; vm_compute; reflexivity.
Defined.

(** ** Notifications come in pairs *)

Lemma trace_emit_pair (a b : Effect) (w : World) :
  trace (emit b (emit a w)) = trace w ++ [a; b].
Proof.
  unfold emit. cbn [trace with_trace].
  rewrite <- List.app_assoc. reflexivity.
Qed.

Lemma trace_invoke_pair (l : SegmentEvents.t) (g : SegmentGlobalEvent)
    (w : World) :
  trace (waveform_invoke g (invoke l w)) = trace w ++ [Local l; Global g].
Proof.
  apply trace_emit_pair.
Qed.

(** ** Visibility *)

(** X3: [setVisibility(v)] always ends with [visible = v], whatever the
    segment's permissions.  It changes nothing and notifies nobody when the
    segment already has that visibility; otherwise it changes only [visible]
    and fires the local [update] and then the global [regionUpdated], once
    each.  Calling it again with the same value does nothing more. *)
Theorem setVisibility_notifies_only_a_change :
  forall (v : bool) (w : World),
    visible (seg (setVisibility v w)) = v
    /\ (visible (seg w) = v -> setVisibility v w = w)
    /\ (visible (seg w) <> v ->
        seg (setVisibility v w) = set_visible v (seg w)
        /\ trace (setVisibility v w)
           = trace w ++ [Local SegmentEvents.update; Global regionUpdated]
        /\ waveform (setVisibility v w) = waveform w)
    /\ setVisibility v (setVisibility v w) = setVisibility v w.
Proof.
  intros v w.
  assert (Hafter : visible (seg (setVisibility v w)) = v).
  { unfold setVisibility.
    destruct (Bool.eqb v (visible (seg w))) eqn:Heq; [| reflexivity].
    apply eqb_prop in Heq. symmetry. exact Heq. }
  split; [exact Hafter |].
  split; [| split].
  - intros Hsame. unfold setVisibility. rewrite Hsame, eqb_reflx.
    reflexivity.
  - intros Hdiff. unfold setVisibility.
    destruct (Bool.eqb v (visible (seg w))) eqn:Heq.
    + apply eqb_prop in Heq. congruence.
    + cbv zeta. rewrite trace_invoke_pair. repeat split.
  - unfold setVisibility at 1. rewrite Hafter, eqb_reflx. reflexivity.
Qed.

Lemma setVisibility_notifies_only_a_change_witness :
  setVisibility true demo_world = demo_world
  /\ trace (setVisibility false locked_world)
     = [Local SegmentEvents.update; Global regionUpdated].
Proof.
  split.
  - exact (proj1 (proj2 (setVisibility_notifies_only_a_change true
                           demo_world)) eq_refl).
  - refine (proj1 (proj2 (proj1 (proj2 (proj2
              (setVisibility_notifies_only_a_change false locked_world)))
              _))).
    discriminate.
Defined.

(** ** Programmatic repositioning *)

(** X4: on an updateable segment [updatePosition(a, b)] commits the two
    values in ascending order, so the order of the arguments does not
    matter; it touches no field but [start] and [end], and it fires the local
    [update] and the global [regionUpdated] once each, also when the bounds
    it commits are the ones the segment already had. *)
Theorem updatePosition_sorts_its_arguments :
  forall (a b : Q) (w : World),
    updateable (seg w) = true ->
    let s1 := seg (updatePosition (Some a) (Some b) w) in
    let s2 := seg (updatePosition (Some b) (Some a) w) in
    start s1 <= end_ s1
    /\ ((start s1 = a /\ end_ s1 = b) \/ (start s1 = b /\ end_ s1 = a))
    /\ start s2 == start s1 /\ end_ s2 == end_ s1
    /\ set_end_ (end_ (seg w)) (set_start (start (seg w)) s1) = seg w
    /\ trace (updatePosition (Some a) (Some b) w)
       = trace w ++ [Local SegmentEvents.update; Global regionUpdated].
Proof.
  intros a b w Hu s1 s2.
  destruct (@updatePosition_bounds a b w Hu) as [Hswap1 Hkeep1].
  destruct (@updatePosition_bounds b a w Hu) as [Hswap2 Hkeep2].
  fold s1 in Hswap1, Hkeep1. fold s2 in Hswap2, Hkeep2.
  assert (Hframe : set_end_ (end_ (seg w)) (set_start (start (seg w)) s1)
                   = seg w
                   /\ trace (updatePosition (Some a) (Some b) w)
                      = trace w
                        ++ [Local SegmentEvents.update; Global regionUpdated]).
  { subst s1. unfold updatePosition. rewrite Hu. cbn [negb nullish].
    destruct (Qlt_le_dec b a); cbv zeta; rewrite trace_invoke_pair;
      cbn; destruct (seg w); split; reflexivity. }
  destruct (Qlt_le_dec b a) as [Hlt | Hle].
  - destruct (Hswap1 Hlt) as [Hs1 He1].
    destruct (Hkeep2 (Qlt_le_weak _ _ Hlt)) as [Hs2 He2].
    rewrite Hs1, He1, Hs2, He2.
    repeat split; try reflexivity; try lra; try apply Hframe.
    right. split; reflexivity.
  - destruct (Hkeep1 Hle) as [Hs1 He1]. rewrite Hs1, He1.
    destruct (Qlt_le_dec a b) as [Hlt' | Hle'].
    + destruct (Hswap2 Hlt') as [Hs2 He2]. rewrite Hs2, He2.
      repeat split; try reflexivity; try lra; try apply Hframe.
      left. split; reflexivity.
    + destruct (Hkeep2 Hle') as [Hs2 He2]. rewrite Hs2, He2.
      repeat split; try lra; try apply Hframe.
      left. split; reflexivity.
Qed.

Lemma updatePosition_sorts_its_arguments_witness :
  start (seg (updatePosition (Some 40) (Some 30) demo_world))
  <= end_ (seg (updatePosition (Some 40) (Some 30) demo_world)).
Proof.
  exact (proj1 (@updatePosition_sorts_its_arguments 40 30 demo_world
                  eq_refl)).
Defined.

(** X5: [updatePosition()] without arguments puts the current bounds in
    order: it exchanges the bounds of an updateable segment whose start
    exceeds its end (as the constructor or [update] can leave them) and
    keeps every field of a segment that is in order.  In particular a second
    [updatePosition()] after any [updatePosition(a, b)] changes no field. *)
Theorem updatePosition_without_arguments_normalises :
  forall (a b : option Q) (w : World),
    updateable (seg w) = true ->
    (start (seg w) <= end_ (seg w) ->
     seg (updatePosition None None w) = seg w)
    /\ (end_ (seg w) < start (seg w) ->
        seg (updatePosition None None w)
        = set_end_ (start (seg w)) (set_start (end_ (seg w)) (seg w)))
    /\ seg (updatePosition None None (updatePosition a b w))
       = seg (updatePosition a b w).
Proof.
  intros a b w Hu.
  assert (Hnorm : forall w0 : World,
            updateable (seg w0) = true ->
            (start (seg w0) <= end_ (seg w0) ->
             seg (updatePosition None None w0) = seg w0)
            /\ (end_ (seg w0) < start (seg w0) ->
                seg (updatePosition None None w0)
                = set_end_ (start (seg w0))
                    (set_start (end_ (seg w0)) (seg w0)))).
  { intros w0 Hu0. unfold updatePosition. rewrite Hu0. cbn.
    destruct (Qlt_le_dec (end_ (seg w0)) (start (seg w0)));
      split; intros Hord; try lra; cbn; destruct (seg w0); reflexivity. }
  destruct (Hnorm w Hu) as [Hkeep Hswap].
  split; [exact Hkeep | split; [exact Hswap |] ].
  assert (Hu' : updateable (seg (updatePosition a b w)) = true).
  { unfold updatePosition. rewrite Hu. cbn.
    destruct (Qlt_le_dec (b ?? end_ (seg w)) (a ?? start (seg w)));
      exact Hu. }
  apply (Hnorm _ Hu').
  unfold updatePosition. rewrite Hu. cbn.
  destruct (Qlt_le_dec (b ?? end_ (seg w)) (a ?? start (seg w)));
    cbn; lra.
Qed.

Lemma updatePosition_without_arguments_normalises_witness :
  toJSON (updatePosition None None (update reversed_update demo_world))
  = (10, 20).
Proof.
  unfold toJSON.
  rewrite (proj1 (proj2 (@updatePosition_without_arguments_normalises
                           None None (update reversed_update demo_world)
                           eq_refl)) eq_refl).
  reflexivity.
Defined.

(** ** More on dragging *)

(** X6: whatever was grabbed and whatever bounds were recorded at
    pointer-down, a drag step in a waveform of non-negative duration, shown
    at a zoomed width that is not 0, commits bounds with
    [0 <= start <= end <= duration].  (At a zoomed width of 0 the time
    travelled can be [0 / 0], and the code then commits NaN.) *)
Theorem handleDrag_commits_within_waveform :
  forall (e : MouseEvent) (w : World) (g : GrabState),
    updateable (seg w) = true ->
    draggingStartPosition (seg w) = Some g ->
    ~ zoomedWidth (visualizer w) == 0 ->
    0 <= duration (waveform w) ->
    let s' := seg (handleDrag e w) in
    0 <= start s' /\ start s' <= end_ s'
    /\ end_ s' <= duration (waveform w).
Proof.
  intros e w g Hu Hg Hzoom HD s'. subst s'.
  destruct (@handleDrag_commits e w g Hu Hg) as [Hswap Hkeep].
  match type of Hkeep with
  | clamp ?st 0 ?D <= clamp ?et 0 ?D -> _ =>
      pose proof (clamp_ordered st HD) as HS;
      pose proof (clamp_ordered et HD) as HE;
      destruct (Qlt_le_dec (clamp et 0 D) (clamp st 0 D)) as [Hlt | Hle]
  end.
  - destruct (Hswap Hlt) as [-> ->]. lra.
  - destruct (Hkeep Hle) as [-> ->]. lra.
Qed.

Lemma handleDrag_commits_within_waveform_witness :
  0 <= start (seg (handleDrag (pointer 5000 500) long_left_grabbed))
  /\ start (seg (handleDrag (pointer 5000 500) long_left_grabbed))
     <= end_ (seg (handleDrag (pointer 5000 500) long_left_grabbed))
  /\ end_ (seg (handleDrag (pointer 5000 500) long_left_grabbed)) <= 100.
Proof.
  refine (@handleDrag_commits_within_waveform (pointer 5000 500)
            long_left_grabbed
            {| grabPosition := 100; grab_start := 10; grab_end := 200 |}
            eq_refl eq_refl _ _);
    vm_compute; discriminate.
Defined.

(** X7: while the moving edge stays on its side of the fixed one, a resize
    puts it where the pointer has taken it, stopped at the ends of the
    waveform: a left-edge resize commits the recorded start plus the time
    travelled, or 0 if that is negative; a right-edge resize commits the
    recorded end plus the time travelled, or the duration if that is
    beyond it. *)
Theorem handleDrag_resize_follows_pointer :
  forall (e : MouseEvent) (w : World) (g : GrabState),
    updateable (seg w) = true ->
    draggingStartPosition (seg w) = Some g ->
    0 <= grab_start g ->
    grab_start g <= grab_end g ->
    grab_end g <= duration (waveform w) ->
    let s' := seg (handleDrag e w) in
    let moved_start := grab_start g + dragSeconds e g w in
    let moved_end := grab_end g + dragSeconds e g w in
    (isLeftEdge (isGrabbingEdge (seg w)) = true ->
     isRightEdge (isGrabbingEdge (seg w)) = false ->
     moved_start <= grab_end g ->
     (0 <= moved_start -> start s' == moved_start)
     /\ (moved_start <= 0 -> start s' == 0))
    /\ (isRightEdge (isGrabbingEdge (seg w)) = true ->
        isLeftEdge (isGrabbingEdge (seg w)) = false ->
        grab_start g <= moved_end ->
        (moved_end <= duration (waveform w) -> end_ s' == moved_end)
        /\ (duration (waveform w) <= moved_end ->
            end_ s' == duration (waveform w))).
Proof.
  intros e w g Hu Hg H0 Hse Hd s' moved_start moved_end.
  subst s' moved_start moved_end.
  destruct (@handleDrag_commits e w g Hu Hg) as [Hswap Hkeep].
  set (D := duration (waveform w)) in *.
  set (gs := grab_start g) in *. set (ge := grab_end g) in *.
  generalize dependent (dragSeconds e g w). intros sec Hswap Hkeep.
  split; intros Hone Hother Hside; rewrite Hone, Hother in Hswap, Hkeep;
    cbn [orb] in Hswap, Hkeep.
  - set (S := clamp (gs + sec) 0 D) in *. set (E := clamp ge 0 D) in *.
    assert (HE : E == ge) by (subst E; clamp_split ge 0 D; lra).
    assert (HS : S <= ge
                 /\ (0 <= gs + sec -> S == gs + sec)
                 /\ (gs + sec <= 0 -> S == 0)).
    { subst S. clamp_split (gs + sec) 0 D; repeat split; intros; lra. }
    destruct (Qlt_le_dec E S) as [Hlt | Hle]; [lra |].
    destruct (Hkeep Hle) as [-> _]. split; intros; lra.
  - set (NS := clamp (gs + sec) 0 (D - (ge - gs))) in *.
    set (NE := clamp (ge + sec) (NS + 0) D) in *.
    set (S := clamp gs 0 D) in *. set (E := clamp NE 0 D) in *.
    assert (HS : S == gs) by (subst S; clamp_split gs 0 D; lra).
    assert (HNS : 0 <= NS <= D - (ge - gs) /\ NS <= ge + sec).
    { subst NS. clamp_split (gs + sec) 0 (D - (ge - gs));
        repeat split; lra. }
    assert (HNE : 0 <= NE <= D
                  /\ (ge + sec <= D -> NE == ge + sec)
                  /\ (D <= ge + sec -> NE == D)).
    { subst NE. clamp_split (ge + sec) (NS + 0) D;
        repeat split; intros; lra. }
    assert (HE : E == NE) by (subst E; clamp_split NE 0 D; lra).
    destruct (Qlt_le_dec E S) as [Hlt | Hle].
    + destruct HNE as (_ & Hin & Hout).
      destruct (Qlt_le_dec D (ge + sec)) as [Hbig | Hsmall].
      * assert (NE == D) by (apply Hout; lra). lra.
      * assert (NE == ge + sec) by (apply Hin; lra). lra.
    + destruct (Hkeep Hle) as [_ ->]. split; intros; lra.
Qed.

Lemma handleDrag_resize_follows_pointer_witness :
  start (seg (handleDrag (pointer 150 15) left_grabbed)) == 15
  /\ end_ (seg (handleDrag (pointer 2000 200) right_grabbed)) == 100.
Proof.
  split.
  - rewrite (proj1 (proj1 (@handleDrag_resize_follows_pointer
               (pointer 150 15) left_grabbed
               {| grabPosition := 100; grab_start := 10; grab_end := 20 |}
               eq_refl eq_refl
               ltac:(vm_compute; discriminate)
               ltac:(vm_compute; discriminate)
               ltac:(vm_compute; discriminate))
             eq_refl eq_refl ltac:(vm_compute; discriminate))
           ltac:(vm_compute; discriminate)).
    vm_compute. reflexivity.
  - rewrite (proj2 (proj2 (@handleDrag_resize_follows_pointer
               (pointer 2000 200) right_grabbed
               {| grabPosition := 200; grab_start := 10; grab_end := 20 |}
               eq_refl eq_refl
               ltac:(vm_compute; discriminate)
               ltac:(vm_compute; discriminate)
               ltac:(vm_compute; discriminate))
             eq_refl eq_refl ltac:(vm_compute; discriminate))
           ltac:(vm_compute; discriminate)).
    vm_compute. reflexivity.
Defined.

(** What pointer-down leaves behind when nothing refuses it. *)
Lemma mouseDown_arms (e : MouseEvent) (w : World) :
  updateable (seg w) = true ->
  layerGroup_isVisible (controller w) = true ->
  overrideKeyPressed e = false ->
  isLocked (controller w) = false ->
  seg (mouseDown e w)
  = set_isGrabbingEdge (edgeGrabCheck e w)
      (set_draggingStartPosition
         (Some {| grabPosition :=
                    cursorPositionX e + getScrollLeft (visualizer w);
                  grab_start := start (seg w); grab_end := end_ (seg w) |})
         (seg w))
  /\ waveform (mouseDown e w) = waveform w
  /\ visualizer (mouseDown e w) = visualizer w
  /\ controller (mouseDown e w) = controller w
  /\ trace (mouseDown e w)
     = trace w ++ [DocumentAdd "mouseup"; DocumentAdd "mousemove"].
Proof.
  intros Hu Hvis Hkey Hlock. unfold mouseDown.
  rewrite Hu, Hvis, Hkey, Hlock. cbn [negb orb]. cbv zeta.
  rewrite trace_emit_pair. repeat split.
Qed.

(** X8: a segment narrower than one handle cannot be dragged from inside:
    wherever the pointer goes down between its start and its end, both edges
    count as grabbed, and then no drag step changes its bounds. *)
Theorem narrow_segment_cannot_be_dragged :
  forall (e0 e : MouseEvent) (w : World),
    updateable (seg w) = true ->
    layerGroup_isVisible (controller w) = true ->
    overrideKeyPressed e0 = false ->
    isLocked (controller w) = false ->
    0 <= start (seg w) ->
    end_ (seg w) <= duration (waveform w) ->
    start (seg w) <= cursorTime e0 ->
    cursorTime e0 <= end_ (seg w) ->
    end_ (seg w) - start (seg w)
    < pixelsToTime (handleWidth (seg w)) (zoomedWidth (visualizer w))
        (duration (waveform w)) ->
    isGrabbingEdge (seg (mouseDown e0 w))
    = {| isRightEdge := true; isLeftEdge := true |}
    /\ start (seg (handleDrag e (mouseDown e0 w))) == start (seg w)
    /\ end_ (seg (handleDrag e (mouseDown e0 w))) == end_ (seg w).
Proof.
  intros e0 e w Hu Hvis Hkey Hlock H0 Hd Hin1 Hin2 Hnarrow.
  destruct (@mouseDown_arms e0 w Hu Hvis Hkey Hlock)
    as (Hseg & Hwf & _ & _ & _).
  assert (Hedges : edgeGrabCheck e0 w
                   = {| isRightEdge := true; isLeftEdge := true |}).
  { unfold edgeGrabCheck. cbv zeta.
    destruct (Qlt_le_dec _ (cursorTime e0)); [| lra].
    destruct (Qlt_le_dec (cursorTime e0) _); [| lra].
    reflexivity. }
  assert (Hgrab : isGrabbingEdge (seg (mouseDown e0 w))
                  = {| isRightEdge := true; isLeftEdge := true |})
    by (rewrite Hseg; exact Hedges).
  split; [exact Hgrab |].
  assert (Hu1 : updateable (seg (mouseDown e0 w)) = true)
    by (rewrite Hseg; exact Hu).
  assert (Hg1 : draggingStartPosition (seg (mouseDown e0 w))
                = Some {| grabPosition :=
                            cursorPositionX e0 + getScrollLeft (visualizer w);
                          grab_start := start (seg w);
                          grab_end := end_ (seg w) |})
    by (rewrite Hseg; reflexivity).
  destruct (@handleDrag_commits e (mouseDown e0 w) _ Hu1 Hg1)
    as [Hswap Hkeep].
  rewrite Hgrab, Hwf in Hswap, Hkeep.
  cbn [orb isRightEdge isLeftEdge grab_start grab_end] in Hswap, Hkeep.
  set (D := duration (waveform w)) in *.
  set (a := start (seg w)) in *. set (b := end_ (seg w)) in *.
  assert (Ha : clamp a 0 D == a) by (clamp_split a 0 D; lra).
  assert (Hb : clamp b 0 D == b) by (clamp_split b 0 D; lra).
  destruct (Qlt_le_dec (clamp b 0 D) (clamp a 0 D)) as [Hlt | Hle]; [lra |].
  destruct (Hkeep Hle) as [-> ->]. split; assumption.
Qed.

Lemma narrow_segment_cannot_be_dragged_witness :
  start (seg (handleDrag (pointer 900 90)
                (mouseDown (pointer 100 10) narrow_world))) == 10
  /\ end_ (seg (handleDrag (pointer 900 90)
                  (mouseDown (pointer 100 10) narrow_world))) == 101 # 10.
Proof.
  refine (proj2 (@narrow_segment_cannot_be_dragged (pointer 100 10)
                   (pointer 900 90) narrow_world eq_refl eq_refl eq_refl
                   eq_refl _ _ _ _ _));
    vm_compute; try reflexivity; discriminate.
Defined.

(** One drag step of a grabbed, updateable segment: what it makes happen and
    what it leaves alone. *)
Lemma handleDrag_armed (e : MouseEvent) (w : World) (g : GrabState) :
    updateable (seg w) = true ->
    draggingStartPosition (seg w) = Some g ->
    let w' := handleDrag e w in
    trace w' = trace w ++ drag_effects
    /\ isDragging (seg w') = true
    /\ cursor (waveform w')
       = (if isRightEdge (isGrabbingEdge (seg w))
             || isLeftEdge (isGrabbingEdge (seg w))
          then colResize else grabbing, layerName (seg w))
    /\ set_end_ (end_ (seg w)) (set_start (start (seg w)) (seg w'))
       = set_isDragging true (seg w)
    /\ playing (waveform w') = playing (waveform w)
    /\ visualizer w' = visualizer w
    /\ controller w' = controller w.
Proof.
  intros Hu Hg w'. subst w'. unfold drag_effects.
  unfold handleDrag. rewrite Hu, Hg. cbn [negb]. cbv zeta.
  set (w1 := modify (set_isDragging true)
               (emit StopPropagation (emit PreventDefault w))).
  assert (Htr1 : trace w1 = trace w ++ [PreventDefault; StopPropagation])
    by (subst w1; apply trace_emit_pair).
  assert (Hseg1 : seg w1 = set_isDragging true (seg w)) by reflexivity.
  assert (Hedge : isGrabbingEdge (seg w1) = isGrabbingEdge (seg w))
    by reflexivity.
  rewrite Hedge.
  set (edge := isRightEdge (isGrabbingEdge (seg w))
               || isLeftEdge (isGrabbingEdge (seg w))).
  set (w2 := if edge then switchCursor colResize true w1
             else switchCursor grabbing true w1).
  assert (H2 : seg w2 = seg w1 /\ trace w2 = trace w1
               /\ cursor (waveform w2)
                  = (if edge then colResize else grabbing, layerName (seg w))
               /\ playing (waveform w2) = playing (waveform w)
               /\ visualizer w2 = visualizer w
               /\ controller w2 = controller w)
    by (subst w2; destruct edge; repeat split).
  destruct H2 as (Hseg2 & Htr2 & Hcur2 & Hplay2 & Hvis2 & Hctl2).
  match goal with
  | |- context [updatePosition (Some ?a) (Some ?b) w2] =>
      generalize a b
  end.
  intros a b. unfold updatePosition. rewrite Hseg2, Hseg1.
  cbn [updateable set_isDragging negb nullish]. rewrite Hu. cbn [negb].
  destruct (Qlt_le_dec b a); cbv zeta;
    (split;
     [ rewrite trace_invoke_pair; cbn [trace modify with_seg];
       rewrite Htr2, Htr1, <- List.app_assoc; reflexivity
     | cbn -[layerName]; rewrite ?Hseg2, ?Hseg1;
       repeat split; try assumption; destruct (seg w); reflexivity ]).
Qed.


(** ** Whole gestures *)

(** Drag steps in a row. *)
Lemma drag_steps_armed (es : list MouseEvent) (w : World) (g : GrabState) :
  updateable (seg w) = true ->
  draggingStartPosition (seg w) = Some g ->
  let w' := drag_steps es w in
  trace w' = trace w ++ List.concat (map (fun _ => drag_effects) es)
  /\ selected (seg w') = selected (seg w)
  /\ color (seg w') = color (seg w)
  /\ id (seg w') = id (seg w)
  /\ visualizer w' = visualizer w
  /\ playing (waveform w') = playing (waveform w)
  /\ (es <> [] -> isDragging (seg w') = true).
Proof.
  revert w. induction es as [| e es IH]; intros w Hu Hg.
  - cbn. rewrite List.app_nil_r. repeat split. intros H. contradiction.
  - cbn [drag_steps fold_left]. fold (drag_steps es (handleDrag e w)).
    destruct (@handleDrag_armed e w g Hu Hg)
      as (Htr & Hdrag & _ & Hframe & Hplay & Hvis & _).
    destruct (handleDrag_frame e w) as (Hu' & Hg' & _).
    rewrite Hu in Hu'. rewrite Hg in Hg'.
    destruct (IH (handleDrag e w) Hu' Hg')
      as (Htr' & Hsel' & Hcol' & Hid' & Hvis' & Hplay' & Hdrag').
    assert (Hsel : selected (seg (handleDrag e w)) = selected (seg w))
      by exact (f_equal selected Hframe).
    assert (Hcol : color (seg (handleDrag e w)) = color (seg w))
      by exact (f_equal color Hframe).
    assert (Hid : id (seg (handleDrag e w)) = id (seg w))
      by exact (f_equal id Hframe).
    cbn [map List.concat].
    rewrite Htr', Htr, Hsel', Hsel, Hcol', Hcol, Hid', Hid, Hvis', Hvis,
      Hplay', Hplay, <- List.app_assoc.
    repeat split. intros _.
    destruct es as [| e' es'].
    + exact Hdrag.
    + apply Hdrag'. discriminate.
Qed.

(** Pointer-up on an updateable segment, after a drag and after none. *)
Lemma handleMouseUp_after_drag (e : MouseEvent) (w : World) :
  updateable (seg w) = true ->
  isDragging (seg w) = true ->
  seg (handleMouseUp e w) = idle (seg w)
  /\ trace (handleMouseUp e w) = trace w ++ release_effects
  /\ cursor (waveform (handleMouseUp e w)) = (grab, layerName (seg w)).
Proof.
  intros Hu Hd. unfold handleMouseUp, release_effects.
  rewrite Hu, Hd. cbn [negb]. cbv zeta.
  rewrite trace_emit_pair. unfold handleUpdateEnd.
  cbn [trace modify with_seg]. rewrite trace_invoke_pair.
  rewrite <- List.app_assoc. repeat split.
Qed.

Lemma handleMouseUp_click (e : MouseEvent) (w : World) :
  updateable (seg w) = true ->
  isDragging (seg w) = false ->
  seg (handleMouseUp e w)
  = idle (set_color (RgbaColorArray.reset (color (seg w)))
            (set_selected (negb (selected (seg w))) (seg w)))
  /\ trace (handleMouseUp e w)
     = trace w
       ++ (if playing (waveform w) then [PlayerPause] else [])
       ++ [Local SegmentEvents.update; Global regionUpdated;
           Global regionSelected; DocumentRemove "mousemove";
           DocumentRemove "mouseup"]
  /\ cursor (waveform (handleMouseUp e w)) = cursor (waveform w).
Proof.
  intros Hu Hd. unfold handleMouseUp. rewrite Hu, Hd. cbn [negb]. cbv zeta.
  rewrite trace_emit_pair. unfold handleSelected. rewrite Hu. cbn [negb].
  cbv zeta. cbn [truthy nullish].
  destruct (playing (waveform w)); cbn; rewrite <- !List.app_assoc;
    repeat split.
Qed.

(** X9: pointer-down followed by pointer-up with no move in between is a
    click.  It toggles the selection, puts the color back to its base value
    (the darkening of a selected segment is left to [render]), leaves the
    bounds alone and ends with the transient state cleared.  It pauses a
    playing waveform, fires the local [update], the global [regionUpdated]
    and the global [regionSelected] once each, and removes the two document
    listeners it added. *)
Theorem click_toggles_selection :
  forall (e0 e : MouseEvent) (w : World),
    updateable (seg w) = true ->
    layerGroup_isVisible (controller w) = true ->
    overrideKeyPressed e0 = false ->
    isLocked (controller w) = false ->
    isDragging (seg w) = false ->
    let w' := handleMouseUp e (mouseDown e0 w) in
    seg w'
    = idle (set_color (RgbaColorArray.reset (color (seg w)))
              (set_selected (negb (selected (seg w))) (seg w)))
    /\ trace w'
       = trace w
         ++ [DocumentAdd "mouseup"; DocumentAdd "mousemove"]
         ++ (if playing (waveform w) then [PlayerPause] else [])
         ++ [Local SegmentEvents.update; Global regionUpdated;
             Global regionSelected; DocumentRemove "mousemove";
             DocumentRemove "mouseup"]
    /\ toJSON w' = toJSON w.
Proof.
  intros e0 e w Hu Hvis Hkey Hlock Hd w'. subst w'.
  destruct (@mouseDown_arms e0 w Hu Hvis Hkey Hlock)
    as (Hseg & Hwf & _ & _ & Htr).
  assert (Hu1 : updateable (seg (mouseDown e0 w)) = true)
    by (rewrite Hseg; exact Hu).
  assert (Hd1 : isDragging (seg (mouseDown e0 w)) = false)
    by (rewrite Hseg; exact Hd).
  destruct (@handleMouseUp_click e (mouseDown e0 w) Hu1 Hd1)
    as (Hseg' & Htr' & _).
  unfold toJSON. rewrite Hseg', Htr', Htr, Hwf, Hseg.
  rewrite <- List.app_assoc. repeat split.
Qed.

Lemma click_toggles_selection_witness :
  selected (seg (handleMouseUp (pointer 150 15) body_grabbed)) = true
  /\ toJSON (handleMouseUp (pointer 150 15) body_grabbed) = (10, 20).
Proof.
  pose proof (@click_toggles_selection (pointer 150 15) (pointer 150 15)
                demo_world eq_refl eq_refl eq_refl eq_refl eq_refl) as H.
  split.
  - exact (f_equal selected (proj1 H)).
  - exact (proj2 (proj2 H)).
Defined.

(** X10: a gesture with at least one move.  The bounds it ends with are those
    a single move to the last pointer position would commit: they do not
    depend on the path.  Every move fires the local [update] and the global
    [regionUpdated]; the release fires the local [updateEnd] and the global
    [regionUpdatedEnd] once each, removes the two document listeners, shows
    the grab cursor and clears the transient state.  The selection and the
    color are left as they were. *)
Theorem drag_gesture_ends_with_last_position :
  forall (e0 : MouseEvent) (es : list MouseEvent) (e e1 : MouseEvent)
         (w : World),
    updateable (seg w) = true ->
    layerGroup_isVisible (controller w) = true ->
    overrideKeyPressed e0 = false ->
    isLocked (controller w) = false ->
    let w' := handleMouseUp e1 (drag_steps (es ++ [e]) (mouseDown e0 w)) in
    toJSON w' = toJSON (handleDrag e (mouseDown e0 w))
    /\ trace w'
       = trace w
         ++ [DocumentAdd "mouseup"; DocumentAdd "mousemove"]
         ++ List.concat (map (fun _ => drag_effects) (es ++ [e]))
         ++ release_effects
    /\ selected (seg w') = selected (seg w)
    /\ color (seg w') = color (seg w)
    /\ isDragging (seg w') = false
    /\ draggingStartPosition (seg w') = None
    /\ isGrabbingEdge (seg w')
       = {| isRightEdge := false; isLeftEdge := false |}
    /\ cursor (waveform w') = (grab, layerName (seg w)).
Proof.
  intros e0 es e e1 w Hu Hvis Hkey Hlock w'. subst w'.
  destruct (@mouseDown_arms e0 w Hu Hvis Hkey Hlock)
    as (Hseg & Hwf & Hvz & _ & Htr).
  set (w0 := mouseDown e0 w) in *.
  set (g := {| grabPosition :=
                 cursorPositionX e0 + getScrollLeft (visualizer w);
               grab_start := start (seg w); grab_end := end_ (seg w) |})
    in *.
  assert (Hu0 : updateable (seg w0) = true) by (rewrite Hseg; exact Hu).
  assert (Hg0 : draggingStartPosition (seg w0) = Some g)
    by (rewrite Hseg; reflexivity).
  (* the state before the last move *)
  destruct (drag_steps_frame es w0) as (Hu1 & Hg1 & He1 & Hd1).
  destruct (@drag_steps_armed es w0 g Hu0 Hg0)
    as (_ & _ & _ & _ & Hvz1 & _ & _).
  rewrite Hu0 in Hu1. rewrite Hg0 in Hg1.
  (* the whole run of moves *)
  destruct (@drag_steps_armed (es ++ [e]) w0 g Hu0 Hg0)
    as (Htr2 & Hsel2 & Hcol2 & Hid2 & _ & _ & Hdrag2).
  destruct (drag_steps_frame (es ++ [e]) w0) as (Hu2 & _).
  rewrite Hu0 in Hu2.
  assert (Hdragging : isDragging (seg (drag_steps (es ++ [e]) w0)) = true).
  { apply Hdrag2. intros Hnil. apply app_eq_nil in Hnil.
    destruct Hnil as [_ Hnil]. discriminate Hnil. }
  destruct (@handleMouseUp_after_drag e1 _ Hu2 Hdragging)
    as (Hseg3 & Htr3 & Hcur3).
  split.
  { (* the bounds depend on the last position only *)
    unfold toJSON. rewrite Hseg3.
    cbn [idle start end_ set_isGrabbingEdge set_draggingStartPosition
         set_isDragging].
    unfold drag_steps. rewrite fold_left_app. cbn [fold_left].
    fold (drag_steps es w0).
    destruct (@handleDrag_commits e (drag_steps es w0) g Hu1 Hg1)
      as [Hswap Hkeep].
    destruct (@handleDrag_commits e w0 g Hu0 Hg0) as [Hswap0 Hkeep0].
    assert (Hsec : dragSeconds e g (drag_steps es w0) = dragSeconds e g w0)
      by (unfold dragSeconds; rewrite Hvz1, Hd1; reflexivity).
    rewrite He1, Hd1, Hsec in Hswap, Hkeep.
    match type of Hkeep with
    | ?S <= ?E -> _ => destruct (Qlt_le_dec E S) as [Hlt | Hle]
    end.
    - destruct (Hswap Hlt) as [-> ->]. destruct (Hswap0 Hlt) as [-> ->].
      reflexivity.
    - destruct (Hkeep Hle) as [-> ->]. destruct (Hkeep0 Hle) as [-> ->].
      reflexivity. }
  rewrite Htr3, Htr2, Htr, Hcur3, Hseg3.
  cbn [idle selected color isDragging draggingStartPosition isGrabbingEdge
       set_isGrabbingEdge set_draggingStartPosition set_isDragging].
  rewrite Hsel2, Hcol2. unfold layerName. cbn [id set_isGrabbingEdge
       set_draggingStartPosition set_isDragging]. rewrite Hid2.
  rewrite Hseg. cbn [selected color id set_isGrabbingEdge
       set_draggingStartPosition].
  rewrite <- !List.app_assoc. repeat split.
Qed.

Lemma drag_gesture_ends_with_last_position_witness :
  toJSON (handleMouseUp (pointer 200 20)
            (drag_steps ([pointer 900 90; pointer 0 0] ++ [pointer 200 20])
               (mouseDown (pointer 150 15) demo_world)))
  = toJSON (handleDrag (pointer 200 20)
              (mouseDown (pointer 150 15) demo_world)).
Proof.
  exact (proj1 (@drag_gesture_ends_with_last_position (pointer 150 15)
                  [pointer 900 90; pointer 0 0] (pointer 200 20)
                  (pointer 200 20) demo_world eq_refl eq_refl eq_refl
                  eq_refl)).
Defined.

(** X11: a pointer-up that arrives while the segment is not updateable is
    lost.  If an updateable segment is locked with
    [update({ updateable: false })], receives the pointer-up and is unlocked
    again, the world is exactly what it was before the lock: a gesture that
    was in progress is still armed, and no document listener has been
    removed. *)
Theorem release_while_locked_is_lost :
  forall (e : MouseEvent) (w : World),
    updateable (seg w) = true ->
    handleMouseUp e (update lock w) = update lock w
    /\ update unlock (handleMouseUp e (update lock w)) = w.
Proof.
  intros e w Hu.
  assert (Hlocked : updateable (seg (update lock w)) = false)
    by (unfold update; rewrite Hu; reflexivity).
  assert (Hup : handleMouseUp e (update lock w) = update lock w)
    by (unfold handleMouseUp; rewrite Hlocked; reflexivity).
  split; [exact Hup |].
  rewrite Hup. unfold update at 1. rewrite Hlocked.
  cbn [negb andb p_updateable unlock].
  unfold update. rewrite Hu. cbn.
  destruct w as [s wf vis ctl tr]. destruct s. cbn in Hu. rewrite <- Hu.
  reflexivity.
Qed.

Lemma release_while_locked_is_lost_witness :
  draggingStartPosition
    (seg (update unlock (handleMouseUp (pointer 150 15)
                           (update lock body_grabbed))))
  = Some {| grabPosition := 150; grab_start := 10; grab_end := 20 |}.
Proof.
  rewrite (proj2 (@release_while_locked_is_lost (pointer 150 15)
                    body_grabbed eq_refl)).
  reflexivity.
Defined.

(** ** Pointer events in any order *)

Lemma mouseOver_only_sets_cursor (e : MouseEvent) (w : World) :
  seg (mouseOver e w) = seg w
  /\ trace (mouseOver e w) = trace w
  /\ visualizer (mouseOver e w) = visualizer w
  /\ controller (mouseOver e w) = controller w
  /\ duration (waveform (mouseOver e w)) = duration (waveform w)
  /\ zoom (waveform (mouseOver e w)) = zoom (waveform w)
  /\ playing (waveform (mouseOver e w)) = playing (waveform w).
Proof.
  unfold mouseOver.
  destruct (negb (updateable (seg w))
            || negb (layerGroup_isVisible (controller w)));
    [repeat split |].
  cbv zeta. destruct (isDragging (seg w)); [repeat split |].
  destruct (isRightEdge (edgeGrabCheck e w)
            || isLeftEdge (edgeGrabCheck e w)); repeat split.
Qed.

(** What no pointer event touches. *)
Lemma deliver_frame (p : PointerEvent) (w : World) :
  let s := seg w in
  let s' := seg (deliver p w) in
  id s' = id s /\ deleteable s' = deleteable s /\ visible s' = visible s
  /\ highlighted s' = highlighted s /\ updateable s' = updateable s
  /\ handleColor s' = handleColor s /\ handleWidth s' = handleWidth s
  /\ super s' = super s
  /\ duration (waveform (deliver p w)) = duration (waveform w)
  /\ zoom (waveform (deliver p w)) = zoom (waveform w)
  /\ visualizer (deliver p w) = visualizer w
  /\ controller (deliver p w) = controller w.
Proof.
  destruct p as [e | e | e | e]; cbn [deliver]; cbv zeta.
  - destruct (mouseOver_only_sets_cursor e w)
      as (-> & _ & -> & -> & -> & -> & _).
    repeat split.
  - unfold mouseDown.
    destruct (negb (updateable (seg w))
              || negb (layerGroup_isVisible (controller w)));
      [repeat split |].
    destruct (overrideKeyPressed e || isLocked (controller w));
      repeat split.
  - unfold handleDrag.
    destruct (updateable (seg w)) eqn:Hu; cbn [negb];
      [| rewrite Hu; repeat split].
    destruct (draggingStartPosition (seg w)) as [g |];
      [| rewrite Hu; repeat split].
    cbv zeta. unfold updatePosition.
    match goal with
    | |- context [if ?b then switchCursor colResize true ?x else ?y] =>
        destruct b
    end; cbn -[clamp dragSeconds Qlt_le_dec]; rewrite Hu; cbn [negb];
      match goal with
      | |- context [Qlt_le_dec ?x ?y] => destruct (Qlt_le_dec x y)
      end; cbn; rewrite Hu; repeat split.
  - unfold handleMouseUp.
    destruct (updateable (seg w)) eqn:Hu; cbn [negb];
      [| rewrite Hu; repeat split].
    destruct (isDragging (seg w)).
    + cbn. rewrite Hu. repeat split.
    + unfold handleSelected. rewrite Hu. cbn [negb]. cbv zeta.
      destruct (playing (waveform w)); cbn; rewrite Hu; repeat split.
Qed.

(** Only a move changes the bounds. *)
Lemma deliver_bounds (p : PointerEvent) (w : World) :
  0 <= start (seg w) ->
  start (seg w) <= end_ (seg w) ->
  end_ (seg w) <= duration (waveform w) ->
  0 <= start (seg (deliver p w))
  /\ start (seg (deliver p w)) <= end_ (seg (deliver p w))
  /\ end_ (seg (deliver p w)) <= duration (waveform w).
Proof.
  intros H0 Hse Hd.
  destruct p as [e | e | e | e]; cbn [deliver].
  - destruct (mouseOver_only_sets_cursor e w) as (-> & _).
    repeat split; assumption.
  - unfold mouseDown.
    destruct (negb (updateable (seg w))
              || negb (layerGroup_isVisible (controller w)));
      [repeat split; assumption |].
    destruct (overrideKeyPressed e || isLocked (controller w));
      repeat split; assumption.
  - destruct (updateable (seg w)) eqn:Hu;
      [| unfold handleDrag; rewrite Hu; repeat split; assumption].
    destruct (draggingStartPosition (seg w)) as [g |] eqn:Hg;
      [| unfold handleDrag; rewrite Hu, Hg; repeat split; assumption].
    assert (HD : 0 <= duration (waveform w)) by lra.
    destruct (@handleDrag_commits e w g Hu Hg) as [Hswap Hkeep].
    match type of Hkeep with
    | clamp ?st 0 ?D <= clamp ?et 0 ?D -> _ =>
        pose proof (clamp_ordered st HD) as HS;
        pose proof (clamp_ordered et HD) as HE;
        destruct (Qlt_le_dec (clamp et 0 D) (clamp st 0 D)) as [Hlt | Hle]
    end.
    + destruct (Hswap Hlt) as [-> ->]. lra.
    + destruct (Hkeep Hle) as [-> ->]. lra.
  - unfold handleMouseUp.
    destruct (updateable (seg w)) eqn:Hu; cbn [negb];
      [| repeat split; assumption].
    destruct (isDragging (seg w)).
    + cbn. repeat split; assumption.
    + unfold handleSelected. rewrite Hu. cbn [negb]. cbv zeta.
      destruct (playing (waveform w)); cbn; repeat split; assumption.
Qed.

(** X12: a segment that is not updateable is out of reach of the pointer and
    of the guarded mutators: no sequence of hover, pointer-down, move and
    pointer-up events changes anything in the world, and neither do
    [updatePosition], [updateColor], [handleSelected] and
    [handleHighlighted]. *)
Theorem locked_segment_ignores_interaction :
  forall (ps : list PointerEvent) (a b : option Q) (c : Channels)
         (sel hl : option bool) (w : World),
    updateable (seg w) = false ->
    deliver_all ps w = w
    /\ updatePosition a b w = w
    /\ updateColor c w = w
    /\ handleSelected sel w = w
    /\ handleHighlighted hl w = w.
Proof.
  intros ps a b c sel hl w Hu.
  split.
  - induction ps as [| p ps IH]; [reflexivity |].
    cbn [deliver_all fold_left]. fold (deliver_all ps (deliver p w)).
    assert (Hp : deliver p w = w).
    { destruct p as [e | e | e | e]; cbn [deliver].
      - unfold mouseOver. rewrite Hu. reflexivity.
      - unfold mouseDown. rewrite Hu. reflexivity.
      - unfold handleDrag. rewrite Hu. reflexivity.
      - unfold handleMouseUp. rewrite Hu. reflexivity. }
    rewrite Hp. exact IH.
  - unfold updatePosition, updateColor, handleSelected, handleHighlighted.
    rewrite Hu. repeat split.
Qed.

Lemma locked_segment_ignores_interaction_witness :
  deliver_all [Down (pointer 150 15); Move (pointer 900 90);
               Up (pointer 900 90)] locked_world = locked_world.
Proof.
  exact (proj1 (@locked_segment_ignores_interaction
                  [Down (pointer 150 15); Move (pointer 900 90);
                   Up (pointer 900 90)] None None ccc None None
                  locked_world eq_refl)).
Defined.

(** X13: where the zoomed width is not 0, no sequence of pointer events
    takes a segment out of the waveform: if [0 <= start <= end <= duration]
    holds before, it holds after any sequence of hover, pointer-down, move
    and pointer-up events.  Such events never change the segment's [id],
    [deleteable], [visible], [highlighted] and [updateable] flags, its handle
    color, its listeners or its destroyed mark. *)
Theorem pointer_events_keep_segment_in_waveform :
  forall (ps : list PointerEvent) (w : World),
    ~ zoomedWidth (visualizer w) == 0 ->
    0 <= start (seg w) ->
    start (seg w) <= end_ (seg w) ->
    end_ (seg w) <= duration (waveform w) ->
    let s := seg w in
    let s' := seg (deliver_all ps w) in
    (0 <= start s' /\ start s' <= end_ s'
     /\ end_ s' <= duration (waveform w))
    /\ id s' = id s /\ deleteable s' = deleteable s
    /\ visible s' = visible s /\ highlighted s' = highlighted s
    /\ updateable s' = updateable s /\ handleColor s' = handleColor s
    /\ super s' = super s.
Proof.
  intros ps. induction ps as [| p ps IH]; intros w Hzoom H0 Hse Hd s s'.
  - subst s s'. cbn. repeat split; assumption.
  - subst s s'. cbn [deliver_all fold_left].
    fold (deliver_all ps (deliver p w)).
    destruct (deliver_bounds p w H0 Hse Hd) as (H0' & Hse' & Hd').
    destruct (deliver_frame p w)
      as (Hid & Hdel & Hvis & Hhl & Hu & Hhc & _ & Hsup & Hdur & _ & Hvz
          & _).
    rewrite <- Hdur in Hd'. rewrite <- Hvz in Hzoom.
    destruct (IH (deliver p w) Hzoom H0' Hse' Hd')
      as (Hb & Hid' & Hdel' & Hvis' & Hhl' & Hu' & Hhc' & Hsup').
    rewrite Hdur in Hb.
    rewrite Hid', Hid, Hdel', Hdel, Hvis', Hvis, Hhl', Hhl, Hu', Hu,
      Hhc', Hhc, Hsup', Hsup.
    repeat split; apply Hb.
Qed.

Lemma pointer_events_keep_segment_in_waveform_witness :
  end_ (seg (deliver_all [Down (pointer 200 20); Move (pointer 9000 900);
                          Up (pointer 9000 900); Down (pointer 100 10);
                          Move (pointer (-50) (-5))] demo_world)) <= 100.
Proof.
  refine (proj2 (proj2 (proj1 (@pointer_events_keep_segment_in_waveform
            [Down (pointer 200 20); Move (pointer 9000 900);
             Up (pointer 9000 900); Down (pointer 100 10);
             Move (pointer (-50) (-5))] demo_world _ _ _ _))));
    vm_compute; discriminate.
Defined.

(** X14: hovering shows what a pointer-down at the same place would start.
    On an updateable segment that is not being dragged, [mouseOver] shows the
    resize cursor exactly when [mouseDown] with the same event would grab an
    edge, and the grab cursor otherwise; in the middle of a segment at least
    two handles wide it is the grab cursor.  Hovering changes no field of the
    segment and notifies nobody. *)
Theorem hover_cursor_announces_the_gesture :
  forall (e : MouseEvent) (w : World),
    updateable (seg w) = true ->
    layerGroup_isVisible (controller w) = true ->
    overrideKeyPressed e = false ->
    isLocked (controller w) = false ->
    isDragging (seg w) = false ->
    let grabbed := isGrabbingEdge (seg (mouseDown e w)) in
    let handleTime :=
      pixelsToTime (handleWidth (seg w)) (zoomedWidth (visualizer w))
        (duration (waveform w)) in
    cursor (waveform (mouseOver e w))
    = (if isRightEdge grabbed || isLeftEdge grabbed then colResize else grab,
       layerName (seg w))
    /\ (start (seg w) + handleTime <= cursorTime e ->
        cursorTime e <= end_ (seg w) - handleTime ->
        cursor (waveform (mouseOver e w)) = (grab, layerName (seg w)))
    /\ seg (mouseOver e w) = seg w
    /\ trace (mouseOver e w) = trace w.
Proof.
  intros e w Hu Hvis Hkey Hlock Hd grabbed handleTime.
  destruct (@mouseDown_arms e w Hu Hvis Hkey Hlock) as (Hseg & _).
  assert (Hgrabbed : grabbed = edgeGrabCheck e w)
    by (subst grabbed; rewrite Hseg; reflexivity).
  assert (Hcur : cursor (waveform (mouseOver e w))
                 = (if isRightEdge (edgeGrabCheck e w)
                       || isLeftEdge (edgeGrabCheck e w)
                    then colResize else grab, layerName (seg w))).
  { unfold mouseOver. rewrite Hu, Hvis, Hd. cbn [negb orb]. cbv zeta.
    destruct (isRightEdge (edgeGrabCheck e w)
              || isLeftEdge (edgeGrabCheck e w)); reflexivity. }
  split; [rewrite Hgrabbed; exact Hcur |].
  split.
  - intros Hleft Hright. rewrite Hcur. unfold edgeGrabCheck. cbv zeta.
    fold handleTime. cbn [isRightEdge isLeftEdge].
    destruct (Qlt_le_dec (end_ (seg w) - handleTime) (cursorTime e));
      [lra |].
    destruct (Qlt_le_dec (cursorTime e) (start (seg w) + handleTime));
      [lra |].
    reflexivity.
  - destruct (mouseOver_only_sets_cursor e w) as (H1 & H2 & _).
    split; assumption.
Qed.

Lemma hover_cursor_announces_the_gesture_witness :
  cursor (waveform (mouseOver (pointer 150 15) demo_world))
  = (grab, "region-a"%string)
  /\ cursor (waveform (mouseOver (pointer 100 10) demo_world))
     = (colResize, "region-a"%string).
Proof.
  split.
  - refine (proj1 (proj2 (@hover_cursor_announces_the_gesture
              (pointer 150 15) demo_world eq_refl eq_refl eq_refl eq_refl
              eq_refl)) _ _);
      vm_compute; discriminate.
  - exact (proj1 (@hover_cursor_announces_the_gesture
              (pointer 100 10) demo_world eq_refl eq_refl eq_refl eq_refl
              eq_refl)).
Defined.

(** ** Construction and destruction *)

(** X15: the constructor never reads [options.color]: whatever color is
    asked for, the segment starts in the default color ['#ccc'] with handles
    in that color darkened by 0.6.  A constructed segment is not highlighted
    and not in a gesture, has registered its [mouseOver] and [mouseDown]
    handlers, has created one layer named after its id in the group
    ['regions'], and its construction has notified nobody. *)
Theorem constructor_ignores_color :
  forall (options : SegmentOptions) (c : option Channels) (nanoid : string)
         (wf : Waveform) (vis : Visualizer) (ctl : Regions) (w : World),
    constructor options nanoid wf vis ctl = Ok w ->
    constructor (with_opt_color c options) nanoid wf vis ctl = Ok w
    /\ color (seg w) = rgba ccc
    /\ handleColor (seg w) = RgbaColorArray.darken (6 # 10) (rgba ccc)
    /\ id (seg w) = opt_id options ?? nanoid
    /\ highlighted (seg w) = false
    /\ isDragging (seg w) = false
    /\ draggingStartPosition (seg w) = None
    /\ super (seg w)
       = {| isDestroyed := false;
            handlers := [SegmentEvents.mouseOver; SegmentEvents.mouseDown] |}
    /\ layers (visualizer w)
       = layers vis ++ [("regions", "region-" ++ id (seg w))%string]
    /\ trace w = [].
Proof.
  intros options c nanoid wf vis ctl w. unfold constructor.
  cbn [with_opt_color opt_start opt_end].
  destruct (Qlt_le_dec (opt_start options) 0); [discriminate |].
  destruct (Qlt_le_dec (opt_end options) 0); [discriminate |].
  intros [= <-]. repeat split.
Qed.

Lemma constructor_ignores_color_witness :
  constructor (with_opt_color (Some {| red := 255; green := 0; blue := 0;
                                       alpha := 1 |}) demo_options)
    "xxxxx" demo_waveform demo_visualizer demo_controller = Ok demo_world
  /\ color (seg demo_world) = rgba ccc.
Proof.
  pose proof (@constructor_ignores_color demo_options
                (Some {| red := 255; green := 0; blue := 0; alpha := 1 |})
                "xxxxx"%string demo_waveform demo_visualizer demo_controller
                demo_world eq_refl) as H.
  split.
  - exact (proj1 H).
  - exact (proj1 (proj2 H)).
Defined.

(** X16: [destroy] is idempotent and notifies the removal at most once: a
    second [destroy], with or without notification, changes nothing.  The
    global [regionRemoved] is fired once exactly when notification is asked
    for and the segment is deleteable and not destroyed yet; a segment that
    is not deleteable is never marked destroyed.  [destroy] changes no field
    of the segment other than its listeners and its destroyed mark. *)
Theorem destroy_is_idempotent :
  forall (notify again : bool) (w : World),
    destroy again (destroy notify w) = destroy notify w
    /\ trace (destroy notify w)
       = trace w
         ++ (if notify && deleteable (seg w)
                && negb (isDestroyed (super (seg w)))
             then [Global regionRemoved] else [])
    /\ (deleteable (seg w) = false -> destroy notify w = w)
    /\ set_super (super (seg w)) (seg (destroy notify w)) = seg w
    /\ isDestroyed (super (seg (destroy notify w)))
       = deleteable (seg w) || isDestroyed (super (seg w)).
Proof.
  intros notify again w. unfold destroy, remove.
  destruct (deleteable (seg w)) eqn:Hdel;
    destruct (isDestroyed (super (seg w))) eqn:Hdone;
    destruct notify; cbn; rewrite ?Hdel, ?Hdone; cbn;
    rewrite ?orb_true_r, ?List.app_nil_r;
    repeat split; try discriminate; try reflexivity;
    clear; destruct (seg w); reflexivity.
Qed.

Lemma destroy_is_idempotent_witness :
  destroy true (update clear_deleteable demo_world)
  = update clear_deleteable demo_world
  /\ trace (destroy true (destroy true demo_world)) = [Global regionRemoved].
Proof.
  split.
  - exact (proj1 (proj2 (proj2 (destroy_is_idempotent true true
                                  (update clear_deleteable demo_world))))
             eq_refl).
  - rewrite (proj1 (destroy_is_idempotent true true demo_world)).
    exact (proj1 (proj2 (destroy_is_idempotent true true demo_world))).
Defined.

(** ** Selection and highlight *)

(** X17: [handleSelected()] without an argument flips the selection, and
    flipping twice restores it.  Because the darkening is decided by the
    argument and not by the new state, a toggle never darkens: it always puts
    the color back to its base value, also when it selects.  It pauses a
    playing waveform, fires the local [update] and the global
    [regionUpdated] once each and leaves the bounds alone. *)
Theorem handleSelected_toggle :
  forall w : World,
    updateable (seg w) = true ->
    let w1 := handleSelected None w in
    let w2 := handleSelected None w1 in
    seg w1 = set_color (RgbaColorArray.reset (color (seg w)))
               (set_selected (negb (selected (seg w))) (seg w))
    /\ trace w1
       = trace w
         ++ (if playing (waveform w) then [PlayerPause] else [])
         ++ [Local SegmentEvents.update; Global regionUpdated]
    /\ selected (seg w2) = selected (seg w)
    /\ color (seg w2) = RgbaColorArray.reset (color (seg w))
    /\ toJSON w2 = toJSON w.
Proof.
  intros w Hu w1 w2.
  assert (Hone : forall v : World,
            updateable (seg v) = true ->
            seg (handleSelected None v)
            = set_color (RgbaColorArray.reset (color (seg v)))
                (set_selected (negb (selected (seg v))) (seg v))
            /\ trace (handleSelected None v)
               = trace v
                 ++ (if playing (waveform v) then [PlayerPause] else [])
                 ++ [Local SegmentEvents.update; Global regionUpdated]).
  { intros v Hv. unfold handleSelected. rewrite Hv. cbn [negb]. cbv zeta.
    cbn [truthy nullish]. rewrite trace_invoke_pair.
    destruct (playing (waveform v)); cbn; rewrite <- ?List.app_assoc;
      split; reflexivity. }
  destruct (Hone w Hu) as [Hseg1 Htr1]. fold w1 in Hseg1, Htr1.
  assert (Hu1 : updateable (seg w1) = true) by (rewrite Hseg1; exact Hu).
  destruct (Hone w1 Hu1) as [Hseg2 _]. fold w2 in Hseg2.
  split; [exact Hseg1 | split; [exact Htr1 |] ].
  unfold toJSON. rewrite Hseg2, Hseg1. cbn.
  rewrite negb_involutive. repeat split.
Qed.

Lemma handleSelected_toggle_witness :
  selected (seg (handleSelected None demo_world)) = true
  /\ color (seg (handleSelected None demo_world)) = rgba ccc.
Proof.
  pose proof (proj1 (@handleSelected_toggle demo_world eq_refl)) as H.
  split.
  - exact (f_equal selected H).
  - exact (f_equal color H).
Defined.

(** X18: highlighting yields to selection.  While the segment is selected, or
    not updateable, [handleHighlighted] does nothing.  Otherwise it sets or
    flips [highlighted], and here the new state decides the color: turning
    the highlight on darkens a color that is at its base value by a half
    (and leaves an already darkened color alone), turning it off puts the
    color back to its base value.  Selection and bounds are not touched. *)
Theorem handleHighlighted_yields_to_selection :
  forall (hl : option bool) (w : World),
    (updateable (seg w) = false \/ selected (seg w) = true ->
     handleHighlighted hl w = w)
    /\ (updateable (seg w) = true ->
        selected (seg w) = false ->
        let w' := handleHighlighted hl w in
        let on := hl ?? negb (highlighted (seg w)) in
        let at_base :=
          Channels_eqb (RgbaColorArray.rgba (color (seg w)))
            (RgbaColorArray.base (color (seg w))) in
        seg w'
        = set_color
            (if on
             then if at_base
                  then RgbaColorArray.darken (1 # 2) (color (seg w))
                  else color (seg w)
             else RgbaColorArray.reset (color (seg w)))
            (set_highlighted on (seg w))
        /\ trace w'
           = trace w ++ [Local SegmentEvents.update; Global regionUpdated]
        /\ waveform w' = waveform w).
Proof.
  intros hl w. split.
  - intros [Hu | Hsel]; unfold handleHighlighted.
    + rewrite Hu. reflexivity.
    + rewrite Hsel, orb_true_r. reflexivity.
  - intros Hu Hsel w' on at_base. subst w' on at_base.
    unfold handleHighlighted. rewrite Hu, Hsel. cbn [negb orb]. cbv zeta.
    rewrite trace_invoke_pair. unfold setColorDarken, color_reset.
    cbn [seg modify with_seg highlighted color set_highlighted
         waveform_invoke invoke emit with_trace trace waveform].
    destruct (hl ?? negb (highlighted (seg w))) eqn:Hon;
      [destruct (Channels_eqb _ _) |];
      cbn; rewrite ?Hon; repeat split; clear; destruct (seg w); reflexivity.
Qed.

Lemma handleHighlighted_yields_to_selection_witness :
  handleHighlighted (Some true) (handleSelected (Some true) demo_world)
  = handleSelected (Some true) demo_world
  /\ highlighted (seg (handleHighlighted None demo_world)) = true.
Proof.
  split.
  - exact (proj1 (handleHighlighted_yields_to_selection (Some true)
                    (handleSelected (Some true) demo_world))
             (or_intror eq_refl)).
  - exact (f_equal highlighted
             (proj1 (proj2 (handleHighlighted_yields_to_selection None
                              demo_world) eq_refl eq_refl))).
Defined.

(** ** Drawing *)

(** X19: [render] draws nothing and changes nothing when the segment is
    hidden or outside the viewport.  Otherwise it fills exactly three
    rectangles of the canvas's height at one common top offset: the body,
    from [xStart] over [width] pixels in the segment's color, and two
    handles of [handleWidth] pixels in the handle color, the first flush
    with the body's left end and the second flush with its right end.  The
    top offset is the timeline's height or 0, and it is 0 whenever the
    timeline layer is missing or hidden.  Rendering changes no field of the
    segment except, possibly, its color. *)
Theorem render_draws_body_and_flush_handles :
  forall (c : Canvas) (w : World),
    (visible (seg w) = false \/ inViewport w = false ->
     render c w = (w, []))
    /\ (visible (seg w) = true ->
        inViewport w = true ->
        exists body left right : FillRect,
          snd (render c w) = [body; left; right]
          /\ rect_x body = xStart w /\ rect_w body = width w
          /\ fillStyle body = color (seg (fst (render c w)))
          /\ rect_x left = rect_x body
          /\ rect_x right + rect_w right == rect_x body + rect_w body
          /\ rect_w left = handleWidth (seg w)
          /\ rect_w right = handleWidth (seg w)
          /\ fillStyle left = handleColor (seg w)
          /\ fillStyle right = handleColor (seg w)
          /\ rect_y left = rect_y body /\ rect_y right = rect_y body
          /\ rect_h body = height c /\ rect_h left = height c
          /\ rect_h right = height c
          /\ (rect_y body = 0 \/ rect_y body = timelineHeight c)
          /\ (timelineLayer_isVisible c <> Some true -> rect_y body = 0)
          /\ set_color (color (seg w)) (seg (fst (render c w))) = seg w
          /\ (selected (seg w) = false -> fst (render c w) = w)).
Proof.
  intros c w. split.
  - intros [Hvis | Hin]; unfold render.
    + rewrite Hvis. reflexivity.
    + rewrite Hin, orb_true_r. reflexivity.
  - intros Hvis Hin. unfold render. rewrite Hvis, Hin. cbn [negb orb].
    cbv zeta.
    set (w1 := if selected (seg w) then setColorDarken (1 # 2) w else w).
    assert (H1 : waveform w1 = waveform w /\ visualizer w1 = visualizer w
                 /\ set_color (color (seg w)) (seg w1) = seg w
                 /\ (selected (seg w) = false -> w1 = w)).
    { subst w1. unfold setColorDarken.
      destruct (selected (seg w)); [destruct (Channels_eqb _ _) |];
        cbn; repeat split; try discriminate;
        clear; destruct (seg w); reflexivity. }
    destruct H1 as (Hwf & Hvz & Hframe & Hsame).
    assert (Hxs : xStart w1 = xStart w).
    { unfold xStart. rewrite Hwf, Hvz.
      rewrite <- (f_equal start Hframe). reflexivity. }
    assert (Hwd : width w1 = width w).
    { unfold width. rewrite Hwf, Hvz.
      rewrite <- (f_equal start Hframe), <- (f_equal end_ Hframe).
      reflexivity. }
    assert (Hhw : handleWidth (seg w1) = handleWidth (seg w))
      by exact (f_equal handleWidth Hframe).
    assert (Hhc : handleColor (seg w1) = handleColor (seg w))
      by exact (f_equal handleColor Hframe).
    do 3 eexists. cbn [snd fst].
    split; [reflexivity |].
    cbn [rect_x rect_y rect_w rect_h fillStyle].
    unfold xEnd. rewrite Hxs, Hwd, Hhw, Hhc.
    repeat split; try reflexivity; try assumption.
    + ring.
    + destruct (truthy (timelineLayer_isVisible c)
                && String.eqb (timelinePlacement c)
                     (defaults_timelinePlacement c));
        [right | left]; reflexivity.
    + intros Hlayer.
      destruct (timelineLayer_isVisible c) as [[|] |];
        [contradiction Hlayer; reflexivity | |]; reflexivity.
Qed.

Lemma render_draws_body_and_flush_handles_witness :
  snd (render demo_canvas demo_world)
  = [ {| fillStyle := rgba ccc; rect_x := xStart demo_world; rect_y := 32;
         rect_w := width demo_world; rect_h := 120 |};
      {| fillStyle := RgbaColorArray.darken (6 # 10) (rgba ccc);
         rect_x := xStart demo_world; rect_y := 32; rect_w := 2;
         rect_h := 120 |};
      {| fillStyle := RgbaColorArray.darken (6 # 10) (rgba ccc);
         rect_x := xEnd demo_world - 2; rect_y := 32; rect_w := 2;
         rect_h := 120 |} ]
  /\ render demo_canvas (setVisibility false demo_world)
     = (setVisibility false demo_world, []).
Proof.
  split.
  - destruct (proj2 (render_draws_body_and_flush_handles demo_canvas
                       demo_world) eq_refl eq_refl)
      as (body & left & right & _).
    reflexivity.
  - exact (proj1 (render_draws_body_and_flush_handles demo_canvas
                    (setVisibility false demo_world))
             (or_introl eq_refl)).
Defined.

(** X20: the darkening of a segment selected by a click happens at the next
    [render]: the click leaves the color at its base value, and rendering
    the selected segment, while it is visible and in the viewport, darkens
    it by a half; the body is filled in the darkened color. *)
Theorem render_darkens_the_selection :
  forall (c : Canvas) (w : World),
    updateable (seg w) = true ->
    selected (seg w) = false ->
    visible (seg w) = true ->
    inViewport w = true ->
    let clicked := handleSelected None w in
    let drawn := fst (render c clicked) in
    selected (seg clicked) = true
    /\ RgbaColorArray.rgba (color (seg clicked))
       = RgbaColorArray.base (color (seg w))
    /\ color (seg drawn)
       = RgbaColorArray.darken (1 # 2)
           (RgbaColorArray.reset (color (seg w)))
    /\ fillStyle (hd {| fillStyle := color (seg w); rect_x := 0;
                        rect_y := 0; rect_w := 0; rect_h := 0 |}
                    (snd (render c clicked)))
       = color (seg drawn).
Proof.
  intros c w Hu Hsel Hvis Hin clicked drawn.
  assert (Hseg : seg clicked
                 = set_color (RgbaColorArray.reset (color (seg w)))
                     (set_selected true (seg w))).
  { subst clicked. unfold handleSelected. rewrite Hu. cbn [negb]. cbv zeta.
    cbn [truthy nullish].
    destruct (playing (waveform w)); cbn; rewrite Hsel; reflexivity. }
  assert (Hgeo : inViewport clicked = true).
  { rewrite <- Hin. subst clicked. unfold handleSelected. rewrite Hu.
    cbn [negb]. cbv zeta. cbn [truthy nullish].
    destruct (playing (waveform w)); reflexivity. }
  assert (Hbase : Channels_eqb
                    (RgbaColorArray.rgba (color (seg clicked)))
                    (RgbaColorArray.base (color (seg clicked))) = true).
  { rewrite Hseg. cbn. unfold Channels_eqb.
    rewrite !Qeq_bool_refl. reflexivity. }
  assert (Hvis' : visible (seg clicked) = true)
    by (rewrite Hseg; exact Hvis).
  assert (Hsel' : selected (seg clicked) = true)
    by (rewrite Hseg; reflexivity).
  subst drawn. unfold render.
  rewrite Hvis', Hgeo, Hsel'. cbn [negb orb]. cbv zeta.
  unfold setColorDarken. rewrite Hbase.
  cbn [fst snd hd fillStyle seg modify with_seg].
  rewrite Hseg. repeat split.
Qed.

Lemma render_darkens_the_selection_witness :
  RgbaColorArray.rgba
    (color (seg (fst (render demo_canvas (handleSelected None demo_world)))))
  = {| red := 204 * (1 - (1 # 2)); green := 204 * (1 - (1 # 2));
       blue := 204 * (1 - (1 # 2)); alpha := 1 |}.
Proof.
  rewrite (proj1 (proj2 (proj2 (@render_darkens_the_selection demo_canvas
             demo_world eq_refl eq_refl eq_refl eq_refl)))).
  reflexivity.
Defined.

(** ** Serialisation *)

(** X21: [toJSON] and the constructor round-trip on segments with
    non-negative bounds: a segment built from the serialised form of such a
    segment serialises to the same form.  [updatePosition] does not validate
    what it commits: given a negative value it leaves the segment in a state
    whose serialised form the constructor refuses. *)
Theorem toJSON_round_trip :
  forall (a b : Q) (options : SegmentOptions) (nanoid : string)
         (wf : Waveform) (vis : Visualizer) (ctl : Regions) (w : World),
    (0 <= start (seg w) ->
     0 <= end_ (seg w) ->
     exists w' : World,
       constructor (with_opt_bounds (toJSON w) options) nanoid wf vis ctl
       = Ok w'
       /\ toJSON w' = toJSON w)
    /\ (updateable (seg w) = true ->
        a < 0 \/ b < 0 ->
        exists message : string,
          constructor
            (with_opt_bounds (toJSON (updatePosition (Some a) (Some b) w))
               options) nanoid wf vis ctl
          = Throw message).
Proof.
  intros a b options nanoid wf vis ctl w. split.
  - intros H0 H1. unfold constructor, toJSON.
    cbn [with_opt_bounds opt_start opt_end fst snd].
    destruct (Qlt_le_dec (start (seg w)) 0); [lra |].
    destruct (Qlt_le_dec (end_ (seg w)) 0); [lra |].
    eexists. split; reflexivity.
  - intros Hu Hneg.
    destruct (@updatePosition_bounds a b w Hu) as [Hswap Hkeep].
    unfold constructor, toJSON.
    cbn [with_opt_bounds opt_start opt_end fst snd].
    destruct (Qlt_le_dec b a) as [Hlt | Hle].
    + destruct (Hswap Hlt) as [-> ->].
      destruct (Qlt_le_dec b 0); [eexists; reflexivity |].
      destruct (Qlt_le_dec a 0); [eexists; reflexivity |].
      destruct Hneg; lra.
    + destruct (Hkeep Hle) as [-> ->].
      destruct (Qlt_le_dec a 0); [eexists; reflexivity |].
      destruct (Qlt_le_dec b 0); [eexists; reflexivity |].
      destruct Hneg; lra.
Qed.

Lemma toJSON_round_trip_witness :
  (exists w' : World,
     constructor (with_opt_bounds (toJSON demo_world) demo_options)
       "xxxxx" demo_waveform demo_visualizer demo_controller = Ok w'
     /\ toJSON w' = (10, 20))
  /\ exists message : string,
       constructor
         (with_opt_bounds
            (toJSON (updatePosition (Some (-5)) (Some 20) demo_world))
            demo_options)
         "xxxxx" demo_waveform demo_visualizer demo_controller
       = Throw message.
Proof.
  pose proof (@toJSON_round_trip (-5) 20 demo_options "xxxxx"%string
                demo_waveform demo_visualizer demo_controller demo_world)
    as [Hok Hbad].
  split.
  - apply Hok; vm_compute; discriminate.
  - apply Hbad; [reflexivity | left; reflexivity].
Defined.
